(** * Resource fetching of mapbox-gl-js: [src/util/ajax.js]

    A shallow embedding of the request dispatcher ([makeRequest] and its two
    transports), of the error classifier ([AJAXError]) and of the image
    request queue ([getImage], [resetImageRequestQueue]), followed by the
    properties established about them.

    JavaScript numbers that hold counters and HTTP status codes are modelled
    as [Z]; objects that are shared between the queue and the caller live in
    an explicit store and are named by their index in it. *)

From Stdlib Require Import ZArith String List Bool Lia.
From stdpp Require Import base option list relations.
Import ListNotations.

Local Open Scope string_scope.
Local Open Scope list_scope.

(** ** Configuration ([src/util/config.js]) *)

Module Config.

Record t := { MAX_PARALLEL_IMAGE_REQUESTS : Z }.

(** [config.MAX_PARALLEL_IMAGE_REQUESTS] as shipped. *)
Definition config : t := {| MAX_PARALLEL_IMAGE_REQUESTS := 16 |}.

End Config.

(** ** Request descriptors *)

Inductive Method := GET | POST | PUT.
Inductive ResponseType := type_string | type_json | type_arrayBuffer.
Inductive Credentials := same_origin | include.

Record RequestParameters := {
  url : string;
  headers : list (string * string);
  method : option Method;
  body : option string;
  type : option ResponseType;
  credentials : option Credentials;
  collectResourceTiming : option bool
}.

(** [extend(requestParameters, { type: t })]: the descriptor that [extend]
    (of [./util]) returns.  [extend] writes the field into the object it is
    given and returns that object; descriptors are values here, so what
    the object of the caller reads afterwards is not told by this
    function. *)
Definition extend_type (p : RequestParameters) (t : ResponseType) : RequestParameters :=
  {| url := url p; headers := headers p; method := method p; body := body p;
     type := Some t; credentials := credentials p;
     collectResourceTiming := collectResourceTiming p |}.

(** [extend(requestParameters, { method: m })], in the same way. *)
Definition extend_method (p : RequestParameters) (m : Method) : RequestParameters :=
  {| url := url p; headers := headers p; method := Some m; body := body p;
     type := type p; credentials := credentials p;
     collectResourceTiming := collectResourceTiming p |}.

Definition ArrayBuffer := list Byte.byte.

Definition byteLength (b : ArrayBuffer) : nat := length b.

(** ** Errors *)

Module AJAXError.

Record t := { message : string; status : Z; url : string; name : string }.

Definition token_hint : string :=
  ": you may have provided an invalid Mapbox access token. See https://www.mapbox.com/api-documentation/#access-tokens-and-token-scopes".

Section Constructor.
(** [isMapboxHTTPURL] is imported from [./mapbox]. *)
Variable isMapboxHTTPURL : string -> bool.

(** [new AJAXError(message, status, url)] *)
Definition new (message : string) (status : Z) (url : string) : t :=
  let message :=
    if (status =? 401)%Z && isMapboxHTTPURL url
    then String.append message token_hint
    else message in
  {| message := message; status := status; url := url; name := "AJAXError" |}.
End Constructor.

End AJAXError.

(** Values passed as the first argument of a callback. *)
Inductive JsError :=
| Error (message : string)              (* new Error(message) *)
| AJAX (e : AJAXError.t)                (* new AJAXError(...) *)
| SyntaxError (message : string).       (* thrown by JSON.parse *)

(** ** The request dispatcher *)

Module Ajax.

(** Parsed structured data, the result of [JSON.parse]. *)
#[local] Unset Elimination Schemes.
Inductive JSONValue :=
| JNull
| JBool (b : bool)
| JNumber (literal : string)
| JString (s : string)
| JArray (items : list JSONValue)
| JObject (members : list (string * JSONValue)).
#[local] Set Elimination Schemes.

(** Response bodies, in the form requested by the descriptor. *)
Inductive Body :=
| Text (s : string)
| Buffer (b : ArrayBuffer)
| Json (j : JSONValue).

(** [(error, data, cacheControl, expires)] as received by a
    [ResponseCallback]; absent arguments are [None]. *)
Record CallbackArgs := {
  error : option JsError;
  data : option Body;
  cacheControl : option string;
  expires : option string
}.

(** [callback(err)] *)
Definition callback_error (e : JsError) : CallbackArgs :=
  {| error := Some e; data := None; cacheControl := None; expires := None |}.

(** [callback(null, data, cacheControl, expires)] *)
Definition callback_ok (d : option Body) (cc ex : option string) : CallbackArgs :=
  {| error := None; data := d; cacheControl := cc; expires := ex |}.

Definition callback_data (d : Body) (cc ex : option string) : CallbackArgs :=
  callback_ok (Some d) cc ex.

(** *** Capabilities of the execution context *)

Record Env := {
  window_fetch : bool;              (* window.fetch is truthy *)
  window_Request : bool;            (* window.Request is truthy *)
  window_AbortController : bool;    (* window.AbortController is truthy *)
  isWorker : bool;                  (* isWorker() *)
  self_worker : bool;               (* self.worker is truthy *)
  self_worker_actor : bool          (* self.worker.actor is truthy *)
}.

(** What the code reads of a fetch [Response]. *)
Record Response := {
  ok : bool;
  r_status : Z;
  r_statusText : string;
  r_headers_get : string -> option string
}.

(** A rejection reason, of which the code reads [code] and [message]. *)
Record Rejection := { code : option Z; rej_message : string }.

Inductive FetchPhase :=
| AwaitingResponse                 (* window.fetch(request) is pending *)
| ReadingBody (r : Response)       (* response[type || 'text']() is pending *)
| FetchSettled.

(** What the [onload] handler reads of the [XMLHttpRequest]. *)
Record XHR := {
  status : Z;
  statusText : string;
  response : option Body;           (* xhr.response; [None] is null *)
  getResponseHeader : string -> option string
}.

Inductive XHRPhase := Sent | Done | Aborted.

(** Requests in flight. *)
Inductive Request :=
| FetchRequest (p : RequestParameters) (phase : FetchPhase)
| ActorRequest (operation : string) (p : RequestParameters)
| XMLHttpRequest (p : RequestParameters) (phase : XHRPhase).

(** What can happen to a request: the platform settles one of its
    promises or fires one of its handlers, or the caller invokes
    [cancel()] on the returned handle. *)
Inductive Event :=
| FetchResolved (r : Response)
| FetchRejected (e : Rejection)
| BodyResolved (b : Body)
| BodyRejected (e : Rejection)
| Load (xhr : XHR)
| NetworkError (statusText : string)
| Cancel.

(** [String(xhr.response)], the argument coercion of [JSON.parse]. *)
Definition body_to_string (b : Body) : string :=
  match b with
  | Text s => s
  | Buffer _ => "[object ArrayBuffer]"
  | Json _ => "[object Object]"
  end.

Definition response_to_string (r : option Body) : string :=
  match r with
  | Some b => body_to_string b
  | None => "null"
  end.

(** [x !== null] *)
Definition not_null {A : Type} (x : option A) : bool :=
  match x with
  | Some _ => true
  | None => false
  end.

Definition makeFetchRequest (p : RequestParameters) : Request :=
  FetchRequest p AwaitingResponse.

Definition makeXMLHttpRequest (p : RequestParameters) : Request :=
  XMLHttpRequest p Sent.

(** [makeRequest]; [/^file:/.test(url)] is a prefix test. *)
Definition makeRequest (env : Env) (p : RequestParameters) : Request :=
  if negb (String.prefix "file:" (url p)) then
    if window_fetch env && window_Request env && window_AbortController env
    then makeFetchRequest p
    else if isWorker env && self_worker env && self_worker_actor env
    then ActorRequest "getResource" p
    else makeXMLHttpRequest p
  else makeXMLHttpRequest p.

(** The two capability tests of [makeRequest]: whether the streaming
    transport can be used, and whether the request can be delegated to the
    actor of the worker. *)
Definition streaming_available (env : Env) : bool :=
  window_fetch env && window_Request env && window_AbortController env.

Definition worker_linked (env : Env) : bool :=
  isWorker env && self_worker env && self_worker_actor env.

(** The status test of [xhr.onload]. *)
Definition success_status (s : Z) : bool :=
  ((200 <=? s)%Z && (s <? 300)%Z) || (s =? 0)%Z.

Definition getJSON env p := makeRequest env (extend_type p type_json).
Definition getArrayBuffer env p := makeRequest env (extend_type p type_arrayBuffer).
Definition postData env p := makeRequest env (extend_method p POST).

(** The methods of a [Response] that read its body. *)
Inductive BodyReader := read_text | read_json | read_arrayBuffer.

(** [response[requestParameters.type || 'text']]: a response has the
    methods [text], [json] and [arrayBuffer]; it has no method
    [string]. *)
Definition body_reader (p : RequestParameters) : option BodyReader :=
  match type p with
  | None => Some read_text
  | Some type_json => Some read_json
  | Some type_arrayBuffer => Some read_arrayBuffer
  | Some type_string => None
  end.



(** [.catch(err => callback(new Error(err.message)))] of the body promise. *)
Definition body_catch (err : Rejection) : list CallbackArgs :=
  [callback_error (Error (rej_message err))].

(** The outer [.catch((error) => ...)] of [makeFetchRequest]. *)
Definition fetch_catch (error : Rejection) : list CallbackArgs :=
  match code error with
  | Some c => if (c =? 20)%Z then []     (* silence expected AbortError *)
              else [callback_error (Error (rej_message error))]
  | None => [callback_error (Error (rej_message error))]
  end.

(** [xhr.onerror] *)
Definition xhr_onerror (statusText : string) : list CallbackArgs :=
  [callback_error (Error statusText)].

Section Dispatcher.

(** [isMapboxHTTPURL] is imported from [./mapbox]. *)
Variable isMapboxHTTPURL : string -> bool.

(** The platform's [JSON.parse], which either returns a value or throws
    a [SyntaxError] with some message. *)
Variable JSON_parse : string -> JSONValue + string.

(** The message of the [AbortError] with which the platform rejects a
    pending promise of an aborted fetch. *)
Variable AbortError_message : string.

Definition AbortError : Rejection :=
  {| code := Some 20%Z; rej_message := AbortError_message |}.

(** The message of the [TypeError] that calling a method a response does
    not have throws. *)
Variable TypeError_message : string.

Definition TypeError : Rejection :=
  {| code := None; rej_message := TypeError_message |}.

(** What the caller's callback does when it is invoked with these
    arguments: it returns ([None]) or it throws. *)
Variable callback_throws : CallbackArgs -> option Rejection.

(** An invocation inside a promise handler with a [.catch] chained to it:
    when the callback throws, what it throws goes to that [.catch]. *)
Definition invoke_caught (a : CallbackArgs) (catch : Rejection -> list CallbackArgs)
  : list CallbackArgs :=
  a :: match callback_throws a with
       | Some thrown => catch thrown
       | None => []
       end.

(** The body of [window.fetch(request).then(response => ...)]: for a
    response that is [ok] it starts reading the body, or throws when the
    response has no method of the name of the type; for another it calls
    back with an [AJAXError].  What is thrown goes to the outer
    [.catch]. *)
Definition fetch_then (p : RequestParameters) (response : Response)
  : FetchPhase * list CallbackArgs :=
  if ok response
  then match body_reader p with
       | Some _ => (ReadingBody response, [])
       | None => (FetchSettled, fetch_catch TypeError)
       end
  else (FetchSettled,
        invoke_caught
          (callback_error (AJAX (AJAXError.new isMapboxHTTPURL
                                   (r_statusText response) (r_status response) (url p))))
          fetch_catch).

(** [.then(result => callback(null, result, ...))] of the body promise,
    with the [.catch] that is chained to it. *)
Definition body_then (response : Response) (result : Body) : list CallbackArgs :=
  invoke_caught
    (callback_data result (r_headers_get response "Cache-Control")
                          (r_headers_get response "Expires"))
    body_catch.

(** [xhr.onload] *)
Definition xhr_onload (p : RequestParameters) (xhr : XHR) : list CallbackArgs :=
  if (((200 <=? status xhr)%Z && (status xhr <? 300)%Z) || (status xhr =? 0)%Z)
     && not_null (response xhr)
  then
    match type p with
    | Some type_json =>
        (* try { data = JSON.parse(xhr.response); } catch (err) { return callback(err); } *)
        match JSON_parse (response_to_string (response xhr)) with
        | inr msg => [callback_error (SyntaxError msg)]
        | inl j => [callback_ok (Some (Json j)) (getResponseHeader xhr "Cache-Control")
                                                (getResponseHeader xhr "Expires")]
        end
    | _ => [callback_ok (response xhr) (getResponseHeader xhr "Cache-Control")
                                       (getResponseHeader xhr "Expires")]
    end
  else [callback_error (AJAX (AJAXError.new isMapboxHTTPURL
                                (statusText xhr) (status xhr) (url p)))].

(** One event: the new state of the request and the invocations of the
    caller's callback it causes.  A promise settles once and an aborted
    [XMLHttpRequest] fires neither [onload] nor [onerror]; an event that
    does not apply to the phase the request is in is ignored.  On
    [controller.abort()] the platform rejects the promise that is pending
    with an [AbortError]; the handler attached to that promise runs.
    What the callback throws in [xhr.onload], in [xhr.onerror] or in a
    [.catch] handler is caught by nothing here. *)
Definition step (r : Request) (e : Event) : Request * list CallbackArgs :=
  match r, e with
  | FetchRequest p AwaitingResponse, FetchResolved resp =>
      let '(ph, out) := fetch_then p resp in (FetchRequest p ph, out)
  | FetchRequest p AwaitingResponse, FetchRejected err =>
      (FetchRequest p FetchSettled, fetch_catch err)
  | FetchRequest p AwaitingResponse, Cancel =>
      (FetchRequest p FetchSettled, fetch_catch AbortError)
  | FetchRequest p (ReadingBody resp), BodyResolved b =>
      (FetchRequest p FetchSettled, body_then resp b)
  | FetchRequest p (ReadingBody resp), BodyRejected err =>
      (FetchRequest p FetchSettled, body_catch err)
  | FetchRequest p (ReadingBody resp), Cancel =>
      (FetchRequest p FetchSettled, body_catch AbortError)
  | XMLHttpRequest p Sent, Load xhr => (XMLHttpRequest p Done, xhr_onload p xhr)
  | XMLHttpRequest p Sent, NetworkError st => (XMLHttpRequest p Done, xhr_onerror st)
  | XMLHttpRequest p Sent, Cancel => (XMLHttpRequest p Aborted, [])
  | _, _ => (r, [])
  end.

(** A sequence of events; the callback invocations are collected in
    order. *)
Fixpoint run (r : Request) (es : list Event) : Request * list CallbackArgs :=
  match es with
  | [] => (r, [])
  | e :: es' =>
      let '(r1, out1) := step r e in
      let '(r2, out2) := run r1 es' in
      (r2, out1 ++ out2)
  end.

End Dispatcher.

(** *** What the transports send *)

(** [requestParameters.method || 'GET'] *)
Definition method_or_GET (p : RequestParameters) : Method :=
  match method p with
  | Some m => m
  | None => GET
  end.

(** [requestParameters.type === 'json'] *)
Definition wants_json (p : RequestParameters) : bool :=
  match type p with
  | Some type_json => true
  | _ => false
  end.

(** [window.location], as [getReferrer] reads it. *)
Record Location := { origin : string; pathname : string }.

(** [getReferrer] outside a worker: the url of the document, or
    [undefined] for a document loaded from the local file system. *)
Definition getReferrer_window (l : Location) : option string :=
  if negb (String.eqb (origin l) "")
     && negb (String.eqb (origin l) "null")
     && negb (String.eqb (origin l) "file://")
  then Some (String.append (origin l) (pathname l))
  else None.

(** [getReferrer] in a worker: [self.worker && self.worker.referrer];
    the argument is [self.worker], when there is one, with its
    [referrer]. *)
Definition getReferrer_worker (worker : option (option string)) : option string :=
  match worker with
  | Some referrer => referrer
  | None => None
  end.

(** [getReferrer]; [isWorker()] decides once which of the two it is. *)
Definition getReferrer (in_worker : bool) (worker : option (option string))
    (l : Location) : option string :=
  if in_worker then getReferrer_worker worker else getReferrer_window l.

(** The [Request] that [makeFetchRequest] builds, and whether it then
    sets the [Accept] header to [application/json]. *)
Record FetchInit := {
  init_url : string;
  init_method : Method;
  init_body : option string;
  init_credentials : option Credentials;
  init_headers : list (string * string);
  init_referrer : option string;
  init_accept_json : bool
}.

Definition fetch_request (referrer : option string) (p : RequestParameters) : FetchInit :=
  {| init_url := url p;
     init_method := method_or_GET p;
     init_body := body p;
     init_credentials := credentials p;
     init_headers := headers p;
     init_referrer := referrer;
     init_accept_json := wants_json p |}.

(** What [makeXMLHttpRequest] does to the [XMLHttpRequest] before it
    returns: the arguments of [open], the response type, the calls of
    [setRequestHeader] in order, [withCredentials], the argument of
    [send]. *)
Record XHRSetup := {
  open_method : Method;
  open_url : string;
  open_async : bool;
  responseType : string;
  requestHeaders : list (string * string);
  withCredentials : bool;
  send_body : option string
}.

Definition xhr_send (p : RequestParameters) : XHRSetup :=
  {| open_method := method_or_GET p;
     open_url := url p;
     open_async := true;
     responseType := match type p with
                     | Some type_arrayBuffer => "arraybuffer"
                     | _ => ""
                     end;
     requestHeaders := headers p ++
                       (if wants_json p then [("Accept", "application/json")] else []);
     withCredentials := match credentials p with
                        | Some include => true
                        | _ => false
                        end;
     send_body := body p |}.

(** *** Reading a request in flight *)

(** The descriptor a request was made for. *)
Definition parameters (r : Request) : RequestParameters :=
  match r with
  | FetchRequest p _ => p
  | ActorRequest _ p => p
  | XMLHttpRequest p _ => p
  end.

(** The transport a request runs on. *)
Inductive Transport := Streaming | Delegated | Buffered.

Definition transport (r : Request) : Transport :=
  match r with
  | FetchRequest _ _ => Streaming
  | ActorRequest _ _ => Delegated
  | XMLHttpRequest _ _ => Buffered
  end.

(** Whether the request runs on one of the two transports of this file,
    and whether it is a fetch whose body is being read. *)
Definition local_transport (r : Request) : bool :=
  match r with
  | ActorRequest _ _ => false
  | _ => true
  end.

Definition reading_body (r : Request) : bool :=
  match r with
  | FetchRequest _ (ReadingBody _) => true
  | _ => false
  end.

(** How many more times the callback of a request can be invoked when
    it returns every time. *)
Definition pending_callbacks (r : Request) : nat :=
  match r with
  | FetchRequest _ AwaitingResponse => 1
  | FetchRequest _ (ReadingBody _) => 1
  | XMLHttpRequest _ Sent => 1
  | _ => 0
  end.

(** How many times it can be invoked at most, whatever it does. *)
Definition callback_bound (r : Request) : nat :=
  match r with
  | FetchRequest _ AwaitingResponse => 2
  | FetchRequest _ (ReadingBody _) => 2
  | XMLHttpRequest _ Sent => 1
  | _ => 0
  end.

(** An invocation with an error is [callback(err)]: it has no further
    argument. *)
Definition error_alone (a : CallbackArgs) : Prop :=
  error a <> None ->
  data a = None /\ cacheControl a = None /\ expires a = None.

(** *** The scheme of an url *)

(** The lower case of a letter, and of the letters of a string. *)
Definition lower (c : Ascii.ascii) : Ascii.ascii :=
  let n := Ascii.nat_of_ascii c in
  if Nat.leb 65 n && Nat.leb n 90 then Ascii.ascii_of_nat (n + 32) else c.

Fixpoint lowercase (s : string) : string :=
  match s with
  | EmptyString => EmptyString
  | String c s' => String (lower c) (lowercase s')
  end.

(** Whether the scheme of an url is [file]: the scheme of an url is
    matched without regard to the case of its letters (RFC 3986, 3.1).
    This follows the wording of the specification, "the address scheme
    is local-file", and not the test of [makeRequest]. *)
Definition scheme_is_file (u : string) : bool :=
  String.prefix "file:" (lowercase u).

End Ajax.

(** ** The image request queue *)

Module ImageQueue.

(** A caller-supplied callback function, named by an identifier; what it is
    called with is recorded in the log of the state. *)
Definition CallbackId := nat.

(** The arguments with which the transport invokes the callback that
    [getImage] hands to [getArrayBuffer]. *)
Record ResponseArgs := {
  err : option JsError;
  data : option ArrayBuffer;
  cacheControl : option string;
  expires : option string
}.

(** The value of a [cancel] property. *)
Inductive CancelFn :=
| cancel_method                 (* cancel() { this.cancelled = true; } *)
| cancel_closure (k : nat).     (* the arrow function returned by activation k *)

(** The [queued] object literal of [getImage].  [requestParameters] is the
    descriptor as it was submitted: the type that [getArrayBuffer] writes
    into it when the entry is dispatched is recorded in the activation. *)
Record Queued := {
  requestParameters : RequestParameters;
  callback : CallbackId;
  cancelled : bool;
  cancel : CancelFn
}.

(** The variables captured by the closures of one call of [getImage] that
    went past the concurrency check: its arguments, [advanced], and
    whether [request.cancel()] has been called on its transport handle. *)
Record Activation := {
  a_requestParameters : RequestParameters;
  a_callback : CallbackId;
  advanced : bool;
  request_cancelled : bool
}.

(** The value assigned to [img.src]. *)
Inductive ImgSrc :=
| transparentPngUrl                     (* the constant: a data: URL of a PNG image *)
| ObjectURL (blob : ArrayBuffer) (mime : string).   (* URL.createObjectURL(blob) *)

(** An [HTMLImageElement] created by the response handler. *)
Record Image := {
  src : ImgSrc;
  img_cacheControl : option string;
  img_expires : option string
}.

(** An image that is loading: the element, the callback its handlers
    invoke, and whether one of [onload] and [onerror] has fired. *)
Record Loading := {
  img : Image;
  img_callback : CallbackId;
  settled : bool
}.

Definition DecodeError : JsError :=
  Error "Could not load image. Please make sure to use a supported image type such as PNG or JPEG. Note that SVGs are not supported.".

(** What the caller's callback is invoked with. *)
Inductive CallbackResult :=
| CbError (e : JsError)         (* callback(err) *)
| CbImage (i : Image).          (* callback(null, img) *)

(** Observable actions, in the order they happen. *)
Inductive Obs :=
| ObsCallback (cb : CallbackId) (r : CallbackResult)
| ObsAbort (k : nat)            (* request.cancel() of activation k *)
| ObsAdvance (k : nat)          (* advanceImageRequestQueue of activation k went past its guard *)
| ObsAssertionError             (* assert(numImageRequests >= 0) threw *)
| ObsRevoke (s : ImgSrc).       (* URL.revokeObjectURL(img.src) *)

(** What [getImage] returns: the [queued] object itself, or a fresh object
    whose [cancel] is the arrow function of the activation. *)
Inductive Handle :=
| HQueued (o : nat)
| HActive (k : nat).

(** The module state [imageQueue], [numImageRequests], together with the
    objects and closures the module has created. *)
Record State := {
  imageQueue : list nat;            (* references to [objects] *)
  numImageRequests : Z;
  objects : list Queued;
  activations : list Activation;
  images : list Loading;
  log : list Obs
}.

Definition set_imageQueue (q : list nat) (s : State) : State :=
  {| imageQueue := q; numImageRequests := numImageRequests s; objects := objects s;
     activations := activations s; images := images s; log := log s |}.

Definition set_numImageRequests (n : Z) (s : State) : State :=
  {| imageQueue := imageQueue s; numImageRequests := n; objects := objects s;
     activations := activations s; images := images s; log := log s |}.

Definition set_objects (os : list Queued) (s : State) : State :=
  {| imageQueue := imageQueue s; numImageRequests := numImageRequests s; objects := os;
     activations := activations s; images := images s; log := log s |}.

Definition set_activations (cs : list Activation) (s : State) : State :=
  {| imageQueue := imageQueue s; numImageRequests := numImageRequests s; objects := objects s;
     activations := cs; images := images s; log := log s |}.

Definition set_images (ls : list Loading) (s : State) : State :=
  {| imageQueue := imageQueue s; numImageRequests := numImageRequests s; objects := objects s;
     activations := activations s; images := ls; log := log s |}.

Definition emit (o : list Obs) (s : State) : State :=
  {| imageQueue := imageQueue s; numImageRequests := numImageRequests s; objects := objects s;
     activations := activations s; images := images s; log := log s ++ o |}.

Definition set_cancelled (b : bool) (q : Queued) : Queued :=
  {| requestParameters := requestParameters q; callback := callback q;
     cancelled := b; cancel := cancel q |}.

Definition set_cancel (f : CancelFn) (q : Queued) : Queued :=
  {| requestParameters := requestParameters q; callback := callback q;
     cancelled := cancelled q; cancel := f |}.

Definition set_advanced (b : bool) (a : Activation) : Activation :=
  {| a_requestParameters := a_requestParameters a; a_callback := a_callback a;
     advanced := b; request_cancelled := request_cancelled a |}.

Definition set_request_cancelled (b : bool) (a : Activation) : Activation :=
  {| a_requestParameters := a_requestParameters a; a_callback := a_callback a;
     advanced := advanced a; request_cancelled := b |}.

Definition set_settled (b : bool) (l : Loading) : Loading :=
  {| img := img l; img_callback := img_callback l; settled := b |}.

(** The state when the module has been loaded. *)
Definition initial : State :=
  {| imageQueue := []; numImageRequests := 0; objects := []; activations := [];
     images := []; log := [] |}.

(** [resetImageRequestQueue] *)
Definition resetImageRequestQueue (s : State) : State :=
  set_numImageRequests 0 (set_imageQueue [] s).

Section Queue.

Variable config : Config.t.

(** The platform's image decoder: whether an element given this [src]
    fires [onload] ([true]) or [onerror] ([false]). *)
Variable decodes : ImgSrc -> bool.

Local Abbreviation MAX := (Config.MAX_PARALLEL_IMAGE_REQUESTS config).

(** [getImage]: the part that runs when it is called. *)
Definition getImage (p : RequestParameters) (cb : CallbackId) (s : State)
  : State * Handle :=
  if (MAX <=? numImageRequests s)%Z then
    let o := length (objects s) in
    let queued := {| requestParameters := p; callback := cb;
                     cancelled := false; cancel := cancel_method |} in
    (set_imageQueue (imageQueue s ++ [o]) (set_objects (objects s ++ [queued]) s),
     HQueued o)
  else
    let k := length (activations s) in
    let act := {| a_requestParameters := extend_type p type_arrayBuffer;
                  a_callback := cb; advanced := false;
                  request_cancelled := false |} in
    (set_activations (activations s ++ [act])
       (set_numImageRequests (numImageRequests s + 1) s),
     HActive k).

(** Reading the [cancel] property of what [getImage] returned. *)
Definition cancel_of (h : Handle) (s : State) : CancelFn :=
  match h with
  | HActive k => cancel_closure k
  | HQueued o => from_option cancel cancel_method (objects s !! o)
  end.

(** The [while] loop of [advanceImageRequestQueue].  Every iteration
    shifts one entry off [imageQueue]; [fuel] bounds their number. *)
Fixpoint drain (fuel : nat) (s : State) : State :=
  match fuel with
  | O => s
  | S fuel' =>
      match imageQueue s with
      | [] => s
      | o :: rest =>
          if (numImageRequests s <? MAX)%Z then
            let s1 := set_imageQueue rest s in
            match objects s1 !! o with
            | Some request =>
                if negb (cancelled request) then
                  let '(s2, h) := getImage (requestParameters request)
                                           (callback request) s1 in
                  let f := cancel_of h s2 in
                  drain fuel' (set_objects (alter (set_cancel f) o (objects s2)) s2)
                else drain fuel' s1
            | None => drain fuel' s1   (* the queue holds objects: not reached *)
            end
          else s
      end
  end.

(** [advanceImageRequestQueue] of activation [k]; the boolean tells
    whether the assertion threw. *)
Definition advanceImageRequestQueue (k : nat) (s : State) : State * bool :=
  match activations s !! k with
  | Some a =>
      if advanced a then (s, false)
      else
        let s1 := set_activations (<[k := set_advanced true a]> (activations s)) s in
        let s2 := emit [ObsAdvance k]
                    (set_numImageRequests (numImageRequests s1 - 1) s1) in
        if (0 <=? numImageRequests s2)%Z
        then (drain (length (imageQueue s2)) s2, false)
        else (emit [ObsAssertionError] s2, true)
  | None => (s, false)
  end.

(** The callback that activation [k] passed to [getArrayBuffer]. *)
Definition onResponse (k : nat) (r : ResponseArgs) (s : State) : State :=
  let '(s1, threw) := advanceImageRequestQueue k s in
  if threw then s1
  else
    match activations s1 !! k with
    | Some a =>
        match err r with
        | Some e => emit [ObsCallback (a_callback a) (CbError e)] s1
        | None =>
            match data r with
            | Some d =>
                let i := {| src := if (0 <? byteLength d)%nat
                                   then ObjectURL d "image/png"
                                   else transparentPngUrl;
                            img_cacheControl := cacheControl r;
                            img_expires := expires r |} in
                set_images (images s1 ++ [{| img := i; img_callback := a_callback a;
                                             settled := false |}]) s1
            | None => s1
            end
        end
    | None => s1
    end.

(** [img.onload] or [img.onerror] of the [i]-th image fires, once. *)
Definition onImageSettled (i : nat) (s : State) : State :=
  match images s !! i with
  | Some l =>
      if settled l then s
      else
        let s1 := set_images (<[i := set_settled true l]> (images s)) s in
        if decodes (src (img l))
        then emit [ObsCallback (img_callback l) (CbImage (img l));
                   ObsRevoke (src (img l))] s1
        else emit [ObsCallback (img_callback l) (CbError DecodeError)] s1
  | None => s
  end.

(** The arrow function [() => { request.cancel(); advanceImageRequestQueue(); }]
    of activation [k]. *)
Definition cancel_active (k : nat) (s : State) : State :=
  match activations s !! k with
  | Some a =>
      let s1 := emit [ObsAbort k]
                  (set_activations (<[k := set_request_cancelled true a]> (activations s)) s) in
      fst (advanceImageRequestQueue k s1)
  | None => s
  end.

(** Calling a [cancel] property with receiver [this]. *)
Definition call_cancel (f : CancelFn) (this : nat) (s : State) : State :=
  match f with
  | cancel_method => set_objects (alter (set_cancelled true) this (objects s)) s
  | cancel_closure k => cancel_active k s
  end.

(** [handle.cancel()] *)
Definition cancel_handle (h : Handle) (s : State) : State :=
  match h with
  | HActive k => cancel_active k s
  | HQueued o =>
      match objects s !! o with
      | Some q => call_cancel (cancel q) o s
      | None => s
      end
  end.

(** What can happen: the application submits a request or cancels a
    handle or resets the queue, the transport of an activation calls
    back, or an image finishes loading. *)
Inductive Event :=
| Submit (p : RequestParameters) (cb : CallbackId)
| CancelHandle (h : Handle)
| Respond (k : nat) (r : ResponseArgs)
| ImageSettled (i : nat)
| Reset.

Definition step (s : State) (e : Event) : State :=
  match e with
  | Submit p cb => fst (getImage p cb s)
  | CancelHandle h => cancel_handle h s
  | Respond k r => onResponse k r s
  | ImageSettled i => onImageSettled i s
  | Reset => resetImageRequestQueue s
  end.

Definition run (es : list Event) (s : State) : State := fold_left step es s.

End Queue.

(** *** Reading the state and the log *)

Fixpoint count {A : Type} (f : A -> bool) (l : list A) : nat :=
  match l with
  | [] => 0
  | x :: l' => (if f x then 1 else 0) + count f l'
  end.

Definition is_advance (k : nat) (o : Obs) : bool :=
  match o with ObsAdvance j => Nat.eqb j k | _ => false end.

Definition is_callback (cb : CallbackId) (o : Obs) : bool :=
  match o with ObsCallback c _ => Nat.eqb c cb | _ => false end.

Definition is_assertion_error (o : Obs) : bool :=
  match o with ObsAssertionError => true | _ => false end.

(** How often [advanceImageRequestQueue] of activation [k] has gone past
    its guard, and how often callback [cb] has been invoked. *)
Definition advances (k : nat) (s : State) : nat := count (is_advance k) (log s).
Definition calls (cb : CallbackId) (s : State) : nat := count (is_callback cb) (log s).

(** The activations whose [advanced] is still [false]. *)
Definition active (s : State) : nat :=
  count (fun a => negb (advanced a)) (activations s).

(** [numImageRequests] counts exactly those. *)
Definition counted (s : State) : Prop := numImageRequests s = Z.of_nat (active s).

(** The entries of [imageQueue], head first. *)
Definition pending (s : State) : list (option Queued) :=
  map (fun o => objects s !! o) (imageQueue s).

(** What [getImage] creates for a request. *)
Definition queued_for (r : RequestParameters * CallbackId) : Queued :=
  {| requestParameters := fst r; callback := snd r;
     cancelled := false; cancel := cancel_method |}.

Definition activation_for (r : RequestParameters * CallbackId) : Activation :=
  {| a_requestParameters := extend_type (fst r) type_arrayBuffer;
     a_callback := snd r; advanced := false; request_cancelled := false |}.

Definition submit (r : RequestParameters * CallbackId) : Event :=
  Submit (fst r) (snd r).

Definition is_reset (e : Event) : bool :=
  match e with Reset => true | _ => false end.

(** The image the response handler makes of an empty payload. *)
Definition placeholder (cc ex : option string) : Image :=
  {| src := transparentPngUrl; img_cacheControl := cc; img_expires := ex |}.

(** No assertion has thrown so far. *)
Definition no_assertion_error (s : State) : Prop :=
  count is_assertion_error (log s) = 0.

(** Activation [k] has advanced the queue, [c] times so far. *)
Definition advanced_at (k c : nat) (s : State) : Prop :=
  (exists a, activations s !! k = Some a /\ advanced a = true) /\ advances k s = c.

(** *** The assignments the code is made of

    Every function above is a sequence of these elementary changes of the
    state; [resets] tells whether [resetImageRequestQueue] is among them. *)

Definition benign (o : Obs) : bool :=
  match o with
  | ObsAdvance _ | ObsAssertionError => false
  | _ => true
  end.

Section Mutations.

Variable config : Config.t.
Variable resets : bool.

Inductive mutation : State -> State -> Prop :=
| m_imageQueue s q : mutation s (set_imageQueue q s)
| m_objects s os : mutation s (set_objects os s)
| m_images s ls : mutation s (set_images ls s)
| m_emit s os : forallb benign os = true -> mutation s (emit os s)
| m_dispatch s p cb :
    (numImageRequests s < Config.MAX_PARALLEL_IMAGE_REQUESTS config)%Z ->
    mutation s (set_activations (activations s ++ [activation_for (p, cb)])
                  (set_numImageRequests (numImageRequests s + 1) s))
| m_decrement s k a :
    activations s !! k = Some a -> advanced a = false ->
    mutation s (emit [ObsAdvance k]
                  (set_numImageRequests (numImageRequests s - 1)
                     (set_activations (<[k := set_advanced true a]> (activations s)) s)))
| m_assert s :
    (numImageRequests s < 0)%Z -> mutation s (emit [ObsAssertionError] s)
| m_request_cancelled s k a :
    activations s !! k = Some a ->
    mutation s (set_activations (<[k := set_request_cancelled true a]> (activations s)) s)
| m_reset s : resets = true -> mutation s (resetImageRequestQueue s).

End Mutations.

(** How the transport of a request completes: it fails with an error, or
    it delivers a payload with its caching headers. *)
Inductive Outcome :=
| Failed (e : JsError)
| Delivered (d : ArrayBuffer) (cc ex : option string).

(** [callback(err)] and [callback(null, data, cacheControl, expires)]. *)
Definition response_of (o : Outcome) : ResponseArgs :=
  match o with
  | Failed e => {| err := Some e; data := None; cacheControl := None; expires := None |}
  | Delivered d cc ex => {| err := None; data := Some d; cacheControl := cc; expires := ex |}
  end.

(** *** Reading the queue *)

(** What the drain loop reads of an entry. *)
Definition view (q : Queued) : RequestParameters * CallbackId * bool :=
  (requestParameters q, callback q, cancelled q).

(** The callback of an entry and whether it is cancelled. *)
Definition flags (q : Queued) : CallbackId * bool := (callback q, cancelled q).

(** The entries a drain pass admits when [free] slots are free, and how
    many entries it shifts off the queue: cancelled entries are shifted
    and dropped, the others are admitted one per slot. *)
Fixpoint taken (free : nat) (vs : list (RequestParameters * CallbackId * bool))
  : list (RequestParameters * CallbackId) * nat :=
  match vs with
  | [] => ([], 0)
  | (p, cb, c) :: vs' =>
      match free with
      | O => ([], 0)
      | S free' =>
          if c
          then let '(a, n) := taken free vs' in (a, S n)
          else let '(a, n) := taken free' vs' in ((p, cb) :: a, S n)
      end
  end.

(** Requests wait only while the counter is at the ceiling. *)
Definition waits_at_ceiling (config : Config.t) (s : State) : Prop :=
  imageQueue s <> [] ->
  (Config.MAX_PARALLEL_IMAGE_REQUESTS config <= numImageRequests s)%Z.

(** Nothing can invoke callback [cb] any more: no activation and no image
    holds it, and every entry that holds it is cancelled and still has the
    [cancel] it was created with. *)
Definition retired (cb : CallbackId) (s : State) : Prop :=
  (forall k a, activations s !! k = Some a -> a_callback a <> cb)
  /\ (forall i l, images s !! i = Some l -> img_callback l <> cb)
  /\ (forall o q, objects s !! o = Some q -> callback q = cb ->
                  cancelled q = true /\ cancel q = cancel_method).

Definition submits (cb : CallbackId) (e : Event) : bool :=
  match e with
  | Submit _ c => Nat.eqb c cb
  | _ => false
  end.

(** The guard of activation [k] has been passed as often as [advanced]
    tells: never before the activation exists or advances, once after. *)
Definition guard_agrees (k : nat) (s : State) : Prop :=
  match activations s !! k with
  | Some a => advances k s = if advanced a then 1 else 0
  | None => advances k s = 0
  end.


(** The state expected after submitting [reqs] to a freshly loaded module,
    for a ceiling of [m]: the first [m] requests are in flight, the others
    wait in the queue in the order they came. *)
Definition submitted (m : nat) (reqs : list (RequestParameters * CallbackId)) : State :=
  {| imageQueue := seq 0 (length (drop m reqs));
     numImageRequests := Z.of_nat (length (take m reqs));
     objects := map queued_for (drop m reqs);
     activations := map activation_for (take m reqs);
     images := [];
     log := [] |}.

End ImageQueue.

(** ** Videos: [getVideo] *)

Module Video.

(** What [sameOrigin] reads of an [HTMLAnchorElement] and of
    [window.document.location]. *)
Record Anchor := { protocol : string; host : string }.

(** What [getVideo] sets on the [HTMLVideoElement]: [muted],
    [crossOrigin], and the [src] of the [source] children it appends. *)
Record VideoElement := {
  muted : bool;
  crossOrigin : option string;
  sources : list string
}.

Section GetVideo.

(** The platform's resolution of [a.href = url], and the location of the
    document. *)
Variable resolve : string -> Anchor.
Variable location : Anchor.

(** [sameOrigin] *)
Definition sameOrigin (url : string) : bool :=
  String.eqb (protocol (resolve url)) (protocol location)
  && String.eqb (host (resolve url)) (host location).

(** One iteration of the [for] loop. *)
Definition append_source (video : VideoElement) (url : string) : VideoElement :=
  {| muted := muted video;
     crossOrigin := if negb (sameOrigin url) then Some "Anonymous"
                    else crossOrigin video;
     sources := sources video ++ [url] |}.

(** The element [getVideo] has built when it returns. *)
Definition getVideo (urls : list string) : VideoElement :=
  fold_left append_source urls
    {| muted := true; crossOrigin := None; sources := [] |}.

End GetVideo.

End Video.

(** ** Data to run the model on *)

Module Examples.

(** An url predicate to run examples with: the url starts with the Mapbox
    API host. *)
Definition isMapboxHTTPURL (u : string) : bool :=
  String.prefix "https://api.mapbox.com" u.

(** A [JSON.parse] that rejects everything but the literal [null]. *)
Definition JSON_parse (s : string) : Ajax.JSONValue + string :=
  if String.eqb s "null" then inl Ajax.JNull else inr "Unexpected token".

Definition AbortError_message : string := "The user aborted a request.".

Definition TypeError_message : string := "response.string is not a function".

(** A callback that returns whatever it is invoked with, and one that
    throws on everything. *)
Definition callback_returns (a : Ajax.CallbackArgs) : option Ajax.Rejection := None.

Definition callback_fails (a : Ajax.CallbackArgs) : option Ajax.Rejection :=
  Some {| Ajax.code := None; Ajax.rej_message := "callback failed" |}.



(** [{ url: u }] *)
Definition get (u : string) : RequestParameters :=
  {| url := u; headers := []; method := None; body := None; type := None;
     credentials := None; collectResourceTiming := None |}.

(** A browser main thread with the Fetch API. *)
Definition modern_window : Ajax.Env :=
  {| Ajax.window_fetch := true; Ajax.window_Request := true;
     Ajax.window_AbortController := true; Ajax.isWorker := false;
     Ajax.self_worker := false; Ajax.self_worker_actor := false |}.

(** A worker of a browser without the Fetch API, linked to its actor. *)
Definition legacy_worker : Ajax.Env :=
  {| Ajax.window_fetch := false; Ajax.window_Request := false;
     Ajax.window_AbortController := false; Ajax.isWorker := true;
     Ajax.self_worker := true; Ajax.self_worker_actor := true |}.

Definition no_headers (h : string) : option string := None.

(** A [200 OK] response whose body is still to be read. *)
Definition response_200 : Ajax.Response :=
  {| Ajax.ok := true; Ajax.r_status := 200; Ajax.r_statusText := "OK";
     Ajax.r_headers_get := no_headers |}.





(** An [XMLHttpRequest] that loaded with status 404. *)
Definition xhr_404 : Ajax.XHR :=
  {| Ajax.status := 404; Ajax.statusText := "Not Found";
     Ajax.response := Some (Ajax.Text "");
     Ajax.getResponseHeader := no_headers |}.

(** Configurations with a ceiling of one and of two. *)
Definition ceiling_1 : Config.t := {| Config.MAX_PARALLEL_IMAGE_REQUESTS := 1 |}.
Definition ceiling_2 : Config.t := {| Config.MAX_PARALLEL_IMAGE_REQUESTS := 2 |}.

(** A decoder that loads every image. *)
Definition decodes_all (s : ImageQueue.ImgSrc) : bool := true.

(** A response that reports a network failure. *)
Definition failure : ImageQueue.ResponseArgs :=
  ImageQueue.response_of (ImageQueue.Failed (Error "Network Error")).

(** A successful response with an empty payload. *)
Definition empty_payload : ImageQueue.ResponseArgs :=
  ImageQueue.response_of (ImageQueue.Delivered [] None None).


(** An [XMLHttpRequest] that loaded the text [null] with status 200. *)
Definition xhr_200_null_text : Ajax.XHR :=
  {| Ajax.status := 200; Ajax.statusText := "OK";
     Ajax.response := Some (Ajax.Text "null");
     Ajax.getResponseHeader := no_headers |}.

(** A document served over https. *)
Definition https_location : Ajax.Location :=
  {| Ajax.origin := "https://example.org"; Ajax.pathname := "/map.html" |}.

(** Five requests submitted to a freshly loaded module with a ceiling of
    two: two are in flight, three wait. *)
Definition five : list ImageQueue.Event :=
  [ImageQueue.Submit (get "1.png") 1; ImageQueue.Submit (get "2.png") 2;
   ImageQueue.Submit (get "3.png") 3; ImageQueue.Submit (get "4.png") 4;
   ImageQueue.Submit (get "5.png") 5].

Definition crowded : ImageQueue.State :=
  ImageQueue.run ceiling_2 decodes_all five ImageQueue.initial.

(** The same when the fourth request has been cancelled and both slots
    have been given back: the state a drain pass starts from. *)
Definition before_drain : ImageQueue.State :=
  ImageQueue.set_numImageRequests 0
    (ImageQueue.cancel_handle ceiling_2 (ImageQueue.HQueued 1) crowded).

(** An url resolver for videos: an url that starts with [/] is on the
    host of the document, any other is on a content delivery network. *)
Definition resolve (u : string) : Video.Anchor :=
  if String.prefix "/" u
  then {| Video.protocol := "https:"; Video.host := "example.org" |}
  else {| Video.protocol := "https:"; Video.host := "cdn.example.net" |}.

Definition document_location : Video.Anchor :=
  {| Video.protocol := "https:"; Video.host := "example.org" |}.

End Examples.

(** ** Proof automation *)

(** One image settles: the handler is evaluated on the state computed so
    far and the verdict of the decoder is split into its two cases. *)
Ltac settle i :=
  match goal with
  | |- context [ImageQueue.onImageSettled ?dec i ?S] =>
      lazymatch S with
      | context [ImageQueue.onImageSettled] => fail
      | _ => idtac
      end;
      let v := eval cbv in (ImageQueue.onImageSettled dec i S) in
      change (ImageQueue.onImageSettled dec i S) with v;
      try match goal with
          | |- context [dec ?x] => destruct (dec x)
          end
  end.

(** * Properties *)

(** ** The error classifier *)

Lemma append_eq_self (s t : string) : String.append s t = s -> t = "".
Proof.
  induction s as [|c s IH]; simpl; intros H; [exact H|].
  injection H as H'. auto.
Qed.

Lemma token_hint_nonempty : AJAXError.token_hint <> "".
Proof. discriminate. Qed.

Section Classifier.

Variable isMapboxHTTPURL : string -> bool.

Lemma new_status message status url :
  AJAXError.status (AJAXError.new isMapboxHTTPURL message status url) = status.
Proof. reflexivity. Qed.

Lemma new_url message status url :
  AJAXError.url (AJAXError.new isMapboxHTTPURL message status url) = url.
Proof. reflexivity. Qed.

(** C9: the message of an [AJAXError] is the given message followed by the
    access-token guidance exactly when the status is 401 and the url is a
    Mapbox HTTP url; a 401 for another host, and any other status for a
    Mapbox url, leave the message as given. *)
Theorem AJAXError_message_augmented_iff (message : string) (status : Z) (url : string) :
  let e := AJAXError.new isMapboxHTTPURL message status url in
  (AJAXError.message e = String.append message AJAXError.token_hint
   <-> status = 401%Z /\ isMapboxHTTPURL url = true)
  /\ (status = 401%Z -> isMapboxHTTPURL url = false -> AJAXError.message e = message)
  /\ (status <> 401%Z -> AJAXError.message e = message)
  /\ AJAXError.status e = status
  /\ AJAXError.url e = url.
Proof.
  cbn zeta. unfold AJAXError.new. cbn [AJAXError.message AJAXError.status AJAXError.url].
  assert (Hne : message <> String.append message AJAXError.token_hint).
  { intros E. symmetry in E. apply append_eq_self in E.
    exact (token_hint_nonempty E). }
  destruct (Z.eqb_spec status 401) as [Hs|Hs];
    destruct (isMapboxHTTPURL url) eqn:Hu; cbn [andb].
  - repeat split; auto; congruence.
  - repeat split; auto; try congruence. intros [_ ?]; congruence.
  - repeat split; auto; try congruence. intros [? _]; congruence.
  - repeat split; auto; try congruence. intros [? _]; congruence.
Qed.

End Classifier.

Lemma AJAXError_message_augmented_iff_witness :
  AJAXError.message (AJAXError.new Examples.isMapboxHTTPURL "Unauthorized" 401
                       "https://example.org/tile.png") = "Unauthorized".
Proof.
  exact (proj1 (proj2 (AJAXError_message_augmented_iff Examples.isMapboxHTTPURL
                         "Unauthorized" 401 "https://example.org/tile.png"))
           eq_refl eq_refl).
Defined.

(** ** The request dispatcher *)

Section DispatcherProperties.

Import Ajax.

Variable isMapboxHTTPURL : string -> bool.
Variable JSON_parse : string -> JSONValue + string.
Variable AbortError_message : string.
Variable TypeError_message : string.
Variable callback_throws : CallbackArgs -> option Rejection.

Local Abbreviation xhr_onload := (Ajax.xhr_onload isMapboxHTTPURL JSON_parse).
Local Abbreviation fetch_then :=
  (Ajax.fetch_then isMapboxHTTPURL TypeError_message callback_throws).
Local Abbreviation step :=
  (Ajax.step isMapboxHTTPURL JSON_parse AbortError_message TypeError_message
     callback_throws).
Local Abbreviation run :=
  (Ajax.run isMapboxHTTPURL JSON_parse AbortError_message TypeError_message
     callback_throws).
Local Abbreviation AJAXError_new := (AJAXError.new isMapboxHTTPURL).

(** An url that passes the test of [makeRequest] has the scheme [file]. *)
Lemma prefix_file_scheme (u : string) :
  String.prefix "file:" u = true -> scheme_is_file u = true.
Proof.
  unfold scheme_is_file.
  destruct u as [|c1 [|c2 [|c3 [|c4 [|c5 u]]]]]; intros H;
    cbn [String.prefix] in H;
    repeat match type of H with
           | context [Ascii.ascii_dec ?a ?b] =>
               destruct (Ascii.ascii_dec a b) as [<-|]
           end;
    try discriminate H.
  destruct u; reflexivity.
Qed.

(** C6, as the code has it: [makeRequest] uses [XMLHttpRequest] for every
    url that starts with the characters [file:], in lower case, all of
    which have the scheme [file]; for another url it uses fetch when
    [fetch], [Request] and [AbortController] exist, else it sends
    ["getResource"] to the actor when it runs in a worker that has one, and
    else it uses [XMLHttpRequest]. *)
Theorem makeRequest_transport_order (env : Env) (p : RequestParameters) :
  (String.prefix "file:" (url p) = true ->
     makeRequest env p = makeXMLHttpRequest p)
  /\ (String.prefix "file:" (url p) = false -> streaming_available env = true ->
        makeRequest env p = makeFetchRequest p)
  /\ (String.prefix "file:" (url p) = false -> streaming_available env = false ->
        worker_linked env = true ->
        makeRequest env p = ActorRequest "getResource" p)
  /\ (String.prefix "file:" (url p) = false -> streaming_available env = false ->
        worker_linked env = false ->
        makeRequest env p = makeXMLHttpRequest p)
  /\ (String.prefix "file:" (url p) = true -> scheme_is_file (url p) = true).
Proof.
  unfold makeRequest, streaming_available, worker_linked.
  repeat split; intros; try (apply prefix_file_scheme; assumption);
    repeat match goal with H : _ = _ |- _ => rewrite H end;
    reflexivity.
Qed.






Lemma xhr_cancel_silent (p : RequestParameters) (es : list Event) :
  snd (run (XMLHttpRequest p Aborted) es) = [].
Proof.
  induction es as [|e es IH]; [reflexivity|].
  cbn [Ajax.run]. replace (step (XMLHttpRequest p Aborted) e)
    with (XMLHttpRequest p Aborted, @nil CallbackArgs) by (destruct e; reflexivity).
  destruct (run (XMLHttpRequest p Aborted) es). simpl in *. exact IH.
Qed.

Lemma fetch_settled_silent (p : RequestParameters) (es : list Event) :
  snd (run (FetchRequest p FetchSettled) es) = [].
Proof.
  induction es as [|e es IH]; [reflexivity|].
  cbn [Ajax.run]. replace (step (FetchRequest p FetchSettled) e)
    with (FetchRequest p FetchSettled, @nil CallbackArgs) by (destruct e; reflexivity).
  destruct (run (FetchRequest p FetchSettled) es). simpl in *. exact IH.
Qed.

(** Cancelling an [XMLHttpRequest] that is in flight, or a fetch whose
    response has not arrived, silences the callback for ever. *)
Lemma cancel_in_flight_silent (p : RequestParameters) (es : list Event) :
  snd (run (makeXMLHttpRequest p) (Cancel :: es)) = []
  /\ snd (run (makeFetchRequest p) (Cancel :: es)) = [].
Proof.
  split.
  - pose proof (xhr_cancel_silent p es) as H.
    cbn [Ajax.run Ajax.step makeXMLHttpRequest].
    destruct (run (XMLHttpRequest p Aborted) es). exact H.
  - pose proof (fetch_settled_silent p es) as H.
    cbn [Ajax.run Ajax.step makeFetchRequest].
    destruct (run (FetchRequest p FetchSettled) es). simpl in *. exact H.
Qed.

(** C7 fails on the fetch transport: when the response has arrived with
    [ok] and the handle is cancelled while the body is being read, the
    callback is invoked with an [Error] carrying the message of the
    [AbortError].  (The body is read for every type but [string], for
    which the response has no method.) *)
Theorem fetch_cancel_while_reading_body (env : Env) (p : RequestParameters) (r : Response) :
  String.prefix "file:" (url p) = false ->
  streaming_available env = true ->
  ok r = true ->
  type p <> Some type_string ->
  run (makeRequest env p) [FetchResolved r; Cancel] =
    (FetchRequest p FetchSettled, [callback_error (Error AbortError_message)]).
Proof.
  intros Hf Hs Hok Ht. unfold makeRequest. unfold streaming_available in Hs.
  rewrite Hf, Hs.
  cbn [negb Ajax.run Ajax.step makeFetchRequest]. unfold Ajax.fetch_then. rewrite Hok.
  unfold body_reader. destruct (type p) as [[]|]; try reflexivity; congruence.
Qed.

End DispatcherProperties.

Lemma makeRequest_transport_order_witness :
  Ajax.makeRequest Examples.legacy_worker (Examples.get "https://example.org/a.json")
  = Ajax.ActorRequest "getResource" (Examples.get "https://example.org/a.json").
Proof.
  exact (proj1 (proj2 (proj2 (makeRequest_transport_order
                                Examples.legacy_worker
                                (Examples.get "https://example.org/a.json"))))
           eq_refl eq_refl eq_refl).
Defined.

(** C6 does not hold as stated: the url [FILE:///style.json] has the
    scheme [file], and where the Fetch API exists [makeRequest] uses it for
    that url. *)
Lemma uppercase_file_scheme_uses_fetch :
  Ajax.scheme_is_file "FILE:///style.json" = true
  /\ Ajax.makeRequest Examples.modern_window (Examples.get "FILE:///style.json")
     = Ajax.makeFetchRequest (Examples.get "FILE:///style.json")
  /\ Ajax.makeRequest Examples.modern_window (Examples.get "FILE:///style.json")
     <> Ajax.makeXMLHttpRequest (Examples.get "FILE:///style.json").
Proof. repeat split. discriminate. Qed.



Lemma fetch_cancel_while_reading_body_witness :
  Ajax.run Examples.isMapboxHTTPURL Examples.JSON_parse Examples.AbortError_message
    Examples.TypeError_message Examples.callback_returns
    (Ajax.makeRequest Examples.modern_window (Examples.get "https://example.org/a.png"))
    [Ajax.FetchResolved Examples.response_200; Ajax.Cancel]
  = (Ajax.FetchRequest (Examples.get "https://example.org/a.png") Ajax.FetchSettled,
     [Ajax.callback_error (Error "The user aborted a request.")]).
Proof.
  refine (fetch_cancel_while_reading_body Examples.isMapboxHTTPURL Examples.JSON_parse
            Examples.AbortError_message Examples.TypeError_message
            Examples.callback_returns Examples.modern_window
            (Examples.get "https://example.org/a.png") Examples.response_200
            eq_refl eq_refl eq_refl _).
  discriminate.
Defined.

(** ** The image request queue *)

Section QueueProperties.

Import ImageQueue.

Variable config : Config.t.
Variable decodes : ImgSrc -> bool.

Local Abbreviation MAX := (Config.MAX_PARALLEL_IMAGE_REQUESTS config).
Local Abbreviation getImage := (ImageQueue.getImage config).
Local Abbreviation drain := (ImageQueue.drain config).
Local Abbreviation advanceImageRequestQueue := (ImageQueue.advanceImageRequestQueue config).
Local Abbreviation onResponse := (ImageQueue.onResponse config).
Local Abbreviation onImageSettled := (ImageQueue.onImageSettled decodes).
Local Abbreviation cancel_active := (ImageQueue.cancel_active config).
Local Abbreviation call_cancel := (ImageQueue.call_cancel config).
Local Abbreviation cancel_handle := (ImageQueue.cancel_handle config).
Local Abbreviation step := (ImageQueue.step config decodes).
Local Abbreviation run := (ImageQueue.run config decodes).

(** *** Counting *)

Lemma count_app {A : Type} (f : A -> bool) (l1 l2 : list A) :
  count f (l1 ++ l2) = count f l1 + count f l2.
Proof. induction l1 as [|x l1 IH]; simpl; [reflexivity | rewrite IH; lia]. Qed.

Lemma count_insert {A : Type} (f : A -> bool) (l : list A) (k : nat) (x y : A) :
  l !! k = Some x ->
  count f (<[k := y]> l) + (if f x then 1 else 0) = count f l + (if f y then 1 else 0).
Proof.
  revert k. induction l as [|z l IH]; intros [|k] H; simpl in *; try discriminate.
  - injection H as ->. lia.
  - specialize (IH k H). lia.
Qed.

Lemma count_insert_same {A : Type} (f : A -> bool) (l : list A) (k : nat) (x y : A) :
  l !! k = Some x -> f y = f x -> count f (<[k := y]> l) = count f l.
Proof. intros H E. pose proof (count_insert f l k x y H) as C. rewrite E in C. lia. Qed.

(** *** [getImage] *)

Lemma getImage_queues (p : RequestParameters) (cb : CallbackId) (s : State) :
  (MAX <= numImageRequests s)%Z ->
  getImage p cb s =
    (set_imageQueue (imageQueue s ++ [length (objects s)])
       (set_objects (objects s ++ [queued_for (p, cb)]) s),
     HQueued (length (objects s))).
Proof.
  intros H. unfold ImageQueue.getImage.
  destruct (Z.leb_spec MAX (numImageRequests s)); [reflexivity | lia].
Qed.

Lemma getImage_dispatches (p : RequestParameters) (cb : CallbackId) (s : State) :
  (numImageRequests s < MAX)%Z ->
  getImage p cb s =
    (set_activations (activations s ++ [activation_for (p, cb)])
       (set_numImageRequests (numImageRequests s + 1) s),
     HActive (length (activations s))).
Proof.
  intros H. unfold ImageQueue.getImage.
  destruct (Z.leb_spec MAX (numImageRequests s)); [lia | reflexivity].
Qed.

Lemma getImage_cases (p : RequestParameters) (cb : CallbackId) (s : State) :
  ((MAX <= numImageRequests s)%Z /\
   getImage p cb s =
     (set_imageQueue (imageQueue s ++ [length (objects s)])
        (set_objects (objects s ++ [queued_for (p, cb)]) s),
      HQueued (length (objects s))))
  \/ ((numImageRequests s < MAX)%Z /\
      getImage p cb s =
        (set_activations (activations s ++ [activation_for (p, cb)])
           (set_numImageRequests (numImageRequests s + 1) s),
         HActive (length (activations s)))).
Proof.
  destruct (Z.le_gt_cases MAX (numImageRequests s)) as [H|H].
  - left. split; [exact H | apply getImage_queues, H].
  - right. split; [exact H | apply getImage_dispatches, H].
Qed.

(** *** The drain loop *)

(** A property that survives shifting the queue, dispatching below the
    ceiling and assigning to a [cancel] property survives the loop. *)
Lemma drain_preserves (P : State -> Prop) :
  (forall s q, P s -> P (set_imageQueue q s)) ->
  (forall s os, P s -> P (set_objects os s)) ->
  (forall s p cb, (numImageRequests s < MAX)%Z -> P s ->
                  P (set_activations (activations s ++ [activation_for (p, cb)])
                       (set_numImageRequests (numImageRequests s + 1) s))) ->
  forall fuel s, P s -> P (drain fuel s).
Proof.
  intros Hq Ho Hd. induction fuel as [|fuel IH]; intros s Hs; [exact Hs|].
  cbn [ImageQueue.drain]. destruct (imageQueue s) as [|o rest] eqn:Eq; [exact Hs|].
  destruct (Z.ltb_spec (numImageRequests s) MAX) as [Hlt|Hge]; [|exact Hs].
  destruct (objects (set_imageQueue rest s) !! o) as [request|] eqn:Er.
  - destruct (cancelled request); cbn [negb].
    + apply IH, Hq, Hs.
    + rewrite getImage_dispatches by exact Hlt.
      apply IH, Ho, Hd; [exact Hlt | apply Hq, Hs].
  - apply IH, Hq, Hs.
Qed.

(** The loop runs until the queue is empty or the ceiling is reached: the
    length of the queue is fuel enough. *)
Lemma drain_complete (fuel : nat) (s : State) :
  length (imageQueue s) <= fuel ->
  imageQueue (drain fuel s) = [] \/ (MAX <= numImageRequests (drain fuel s))%Z.
Proof.
  revert s. induction fuel as [|fuel IH]; intros s Hlen.
  - left. destruct (imageQueue s) eqn:E; [exact E | simpl in Hlen; lia].
  - cbn [ImageQueue.drain]. destruct (imageQueue s) as [|o rest] eqn:Eq; [left; exact Eq|].
    simpl in Hlen.
    destruct (Z.ltb_spec (numImageRequests s) MAX) as [Hlt|Hge]; [|right; exact Hge].
    destruct (objects (set_imageQueue rest s) !! o) as [request|] eqn:Er.
    + destruct (cancelled request); cbn [negb].
      * apply IH. simpl. lia.
      * rewrite getImage_dispatches by exact Hlt. apply IH. simpl. lia.
    + apply IH. simpl. lia.
Qed.

Lemma drain_fuel (fuel : nat) (s : State) :
  length (imageQueue s) <= fuel ->
  drain fuel s = drain (length (imageQueue s)) s.
Proof.
  revert s. induction fuel as [|fuel IH]; intros s Hlen.
  - assert (length (imageQueue s) = 0) as -> by lia. reflexivity.
  - destruct (imageQueue s) as [|o rest] eqn:Eq.
    + cbn [ImageQueue.drain length]. rewrite Eq. reflexivity.
    + cbn [length] in *. cbn [ImageQueue.drain]. rewrite Eq.
      destruct (Z.ltb_spec (numImageRequests s) MAX) as [Hlt|Hge]; [|reflexivity].
      destruct (objects (set_imageQueue rest s) !! o) as [request|] eqn:Er.
      * destruct (cancelled request); cbn [negb].
        -- rewrite IH by (simpl; lia). reflexivity.
        -- rewrite getImage_dispatches by exact Hlt.
           rewrite IH by (simpl; lia). reflexivity.
      * rewrite IH by (simpl; lia). reflexivity.
Qed.

(** *** Every function is a sequence of elementary assignments *)

Section Mutates.

Variable resets : bool.

Local Abbreviation changes := (rtc (mutation config resets)).

Lemma getImage_mutates (p : RequestParameters) (cb : CallbackId) (s : State) :
  changes s (fst (getImage p cb s)).
Proof.
  destruct (getImage_cases p cb s) as [[H ->]|[H ->]]; cbn [fst].
  - eapply rtc_l; [apply m_objects|]. apply rtc_once, m_imageQueue.
  - apply rtc_once, m_dispatch, H.
Qed.

Lemma drain_mutates (fuel : nat) (s : State) : changes s (drain fuel s).
Proof.
  apply (drain_preserves (fun s' => changes s s')); [| | |reflexivity].
  - intros s' q H. eapply rtc_r; [exact H | apply m_imageQueue].
  - intros s' os H. eapply rtc_r; [exact H | apply m_objects].
  - intros s' p cb Hlt H. eapply rtc_r; [exact H | apply m_dispatch, Hlt].
Qed.

Lemma advance_mutates (k : nat) (s : State) :
  changes s (fst (advanceImageRequestQueue k s)).
Proof.
  unfold ImageQueue.advanceImageRequestQueue.
  destruct (activations s !! k) as [a|] eqn:Ea; [|reflexivity].
  destruct (advanced a) eqn:Ead; [reflexivity|].
  eapply rtc_l; [apply (m_decrement config resets s k a Ea Ead)|].
  match goal with |- context [Z.leb 0 ?n] => destruct (Z.leb_spec 0 n) as [Hn|Hn] end;
    cbn [fst].
  - apply drain_mutates.
  - apply rtc_once, m_assert. exact Hn.
Qed.

Lemma onResponse_mutates (k : nat) (r : ResponseArgs) (s : State) :
  changes s (onResponse k r s).
Proof.
  unfold ImageQueue.onResponse.
  pose proof (advance_mutates k s) as H.
  destruct (advanceImageRequestQueue k s) as [s1 threw]. cbn [fst] in H.
  destruct threw; [exact H|].
  destruct (activations s1 !! k) as [a|]; [|exact H].
  destruct (err r) as [e|].
  - eapply rtc_r; [exact H | apply m_emit; reflexivity].
  - destruct (data r) as [d|]; [|exact H].
    eapply rtc_r; [exact H | apply m_images].
Qed.

Lemma onImageSettled_mutates (i : nat) (s : State) : changes s (onImageSettled i s).
Proof.
  unfold ImageQueue.onImageSettled.
  destruct (images s !! i) as [l|]; [|reflexivity].
  destruct (settled l); [reflexivity|].
  eapply rtc_l; [apply m_images|].
  destruct (decodes (src (img l))); apply rtc_once, m_emit; reflexivity.
Qed.

Lemma cancel_active_mutates (k : nat) (s : State) : changes s (cancel_active k s).
Proof.
  unfold ImageQueue.cancel_active.
  destruct (activations s !! k) as [a|] eqn:Ea; [|reflexivity].
  eapply rtc_l; [apply (m_request_cancelled config resets s k a Ea)|].
  eapply rtc_l; [apply (m_emit config resets _ [ObsAbort k]); reflexivity|].
  apply advance_mutates.
Qed.

Lemma cancel_handle_mutates (h : Handle) (s : State) : changes s (cancel_handle h s).
Proof.
  destruct h as [o|k]; cbn [ImageQueue.cancel_handle].
  - destruct (objects s !! o) as [q|]; [|reflexivity].
    destruct (cancel q); cbn [ImageQueue.call_cancel].
    + apply rtc_once, m_objects.
    + apply cancel_active_mutates.
  - apply cancel_active_mutates.
Qed.

Lemma step_mutates (e : Event) (s : State) :
  (is_reset e = true -> resets = true) -> changes s (step s e).
Proof.
  intros Hr. destruct e; cbn [ImageQueue.step].
  - apply getImage_mutates.
  - apply cancel_handle_mutates.
  - apply onResponse_mutates.
  - apply onImageSettled_mutates.
  - apply rtc_once, m_reset, Hr. reflexivity.
Qed.

Lemma run_mutates (es : list Event) (s : State) :
  (existsb is_reset es = true -> resets = true) -> changes s (run es s).
Proof.
  revert s. induction es as [|e es IH]; intros s Hr; [reflexivity|].
  cbn [ImageQueue.run fold_left]. etrans.
  - apply (step_mutates e s). intros He. apply Hr. simpl. rewrite He. reflexivity.
  - apply IH. intros He. apply Hr. simpl. rewrite He. apply orb_true_r.
Qed.

End Mutates.

(** *** Invariants *)

Lemma benign_not_counted (os : list Obs) :
  forallb benign os = true ->
  count is_assertion_error os = 0 /\ forall k, count (is_advance k) os = 0.
Proof.
  induction os as [|o os IH]; simpl; [auto|].
  intros H. apply andb_true_iff in H as [Ho Hos]. destruct (IH Hos) as [IH1 IH2].
  destruct o; try discriminate; simpl; auto.
Qed.

(** [numImageRequests] stays at or below the ceiling. *)
Lemma mutation_ceiling (resets : bool) (s s' : State) :
  (0 <= MAX)%Z -> mutation config resets s s' ->
  (numImageRequests s <= MAX)%Z -> (numImageRequests s' <= MAX)%Z.
Proof. intros H0 M H. destruct M; simpl; lia. Qed.

Lemma changes_ceiling (resets : bool) (s s' : State) :
  (0 <= MAX)%Z -> rtc (mutation config resets) s s' ->
  (numImageRequests s <= MAX)%Z -> (numImageRequests s' <= MAX)%Z.
Proof.
  intros H0 R. induction R as [|s1 s2 s3 M _ IH]; [auto|].
  intros H. apply IH. eapply mutation_ceiling; eauto.
Qed.

(** Without resets [numImageRequests] is the number of activations that
    have not advanced, and the assertion holds whenever it is checked. *)
Lemma mutation_counted (s s' : State) :
  mutation config false s s' ->
  counted s /\ no_assertion_error s -> counted s' /\ no_assertion_error s'.
Proof.
  unfold counted, no_assertion_error, active.
  intros M [Hc Hn]. destruct M; simpl; try (split; assumption).
  - rewrite count_app. destruct (benign_not_counted os) as [-> _]; [assumption|].
    split; [assumption | lia].
  - rewrite count_app. simpl. split; [lia | assumption].
  - pose proof (count_insert (fun a => negb (advanced a)) (activations s) k a
                  (set_advanced true a) ltac:(assumption)) as C.
    simpl in C. replace (advanced a) with false in C by congruence. simpl in C.
    rewrite count_app. simpl. split; lia.
  - lia.
  - rewrite (count_insert_same _ _ k a); [split; assumption | assumption | reflexivity].
  - discriminate.
Qed.

Lemma changes_counted (s s' : State) :
  rtc (mutation config false) s s' ->
  counted s /\ no_assertion_error s -> counted s' /\ no_assertion_error s'.
Proof.
  intros R. induction R as [|s1 s2 s3 M _ IH]; [auto|].
  intros H. apply IH. eapply mutation_counted; eauto.
Qed.

(** Once an activation has advanced the queue, it stays advanced and never
    advances the queue again. *)
Lemma mutation_advanced_at (resets : bool) (k c : nat) (s s' : State) :
  mutation config resets s s' -> advanced_at k c s -> advanced_at k c s'.
Proof.
  unfold advanced_at, advances.
  intros M [(a0 & Ha0 & Had) Hc]. destruct M; simpl.
  - split; [eauto | assumption].
  - split; [eauto | assumption].
  - split; [eauto | assumption].
  - rewrite count_app. destruct (benign_not_counted os) as [_ ->]; [assumption|].
    split; [eauto | lia].
  - split; [|assumption]. exists a0. split; [|assumption].
    apply lookup_app_l_Some. assumption.
  - assert (k0 <> k) as Hne by (intros ->; congruence).
    split.
    + exists a0. split; [|assumption]. rewrite list_lookup_insert_ne; assumption.
    + rewrite count_app. simpl. apply Nat.eqb_neq in Hne. rewrite Hne. lia.
  - rewrite count_app. simpl. split; [eauto | lia].
  - split; [|assumption]. destruct (decide (k0 = k)) as [->|Hne].
    + exists (set_request_cancelled true a). split.
      * apply list_lookup_insert_eq. eapply lookup_lt_Some; eassumption.
      * simpl. congruence.
    + exists a0. split; [|assumption]. rewrite list_lookup_insert_ne; assumption.
  - split; [eauto | assumption].
Qed.

Lemma changes_advanced_at (resets : bool) (k c : nat) (s s' : State) :
  rtc (mutation config resets) s s' -> advanced_at k c s -> advanced_at k c s'.
Proof.
  intros R. induction R as [|s1 s2 s3 M _ IH]; [auto|].
  intros H. apply IH. eapply mutation_advanced_at; eauto.
Qed.

(** The log only grows: what has been observed stays observed, and a
    callback that has not been invoked at the end of a run has not been
    invoked during it. *)
Lemma mutation_log_grows (resets : bool) (s s' : State) :
  mutation config resets s s' -> exists l, log s' = log s ++ l.
Proof.
  intros M. destruct M; simpl; eauto; exists []; rewrite app_nil_r; reflexivity.
Qed.

Lemma changes_log_grows (resets : bool) (s s' : State) :
  rtc (mutation config resets) s s' -> exists l, log s' = log s ++ l.
Proof.
  intros R. induction R as [s|s1 s2 s3 M _ [l2 IH]].
  - exists []. rewrite app_nil_r. reflexivity.
  - destruct (mutation_log_grows _ _ _ M) as [l1 E]. exists (l1 ++ l2).
    rewrite IH, E, app_assoc. reflexivity.
Qed.

Lemma calls_monotone (cb : CallbackId) (es : list Event) (s : State) :
  calls cb s <= calls cb (run es s).
Proof.
  destruct (changes_log_grows true s (run es s)) as [l E].
  - apply run_mutates. reflexivity.
  - unfold calls. rewrite E, count_app. lia.
Qed.

Lemma initial_counted : counted initial /\ no_assertion_error initial.
Proof. split; reflexivity. Qed.

(** In a run without resets the counter never goes below zero and the
    assertion never throws. *)
Lemma reset_free_run_nonnegative (es : list Event) :
  existsb is_reset es = false ->
  (0 <= numImageRequests (run es initial))%Z
  /\ counted (run es initial) /\ no_assertion_error (run es initial).
Proof.
  intros Hr.
  assert (counted (run es initial) /\ no_assertion_error (run es initial)) as [Hc Hn].
  { apply (changes_counted initial); [|apply initial_counted].
    apply run_mutates. rewrite Hr. discriminate. }
  split; [|split; assumption]. unfold counted in Hc. lia.
Qed.

(** *** Submissions *)

Lemma lookup_all_seq {A : Type} (pre l : list A) :
  map (fun o => (pre ++ l) !! o) (seq (length pre) (length l)) = map Some l.
Proof.
  revert pre. induction l as [|x l IH]; intros pre; [reflexivity|].
  cbn [length seq map]. f_equal.
  - rewrite lookup_app_r by lia. rewrite Nat.sub_diag. reflexivity.
  - specialize (IH (pre ++ [x])). rewrite length_app in IH. cbn [length] in IH.
    rewrite Nat.add_1_r in IH. rewrite <- app_assoc in IH. exact IH.
Qed.

Lemma pending_submitted (m : nat) (reqs : list (RequestParameters * CallbackId)) :
  pending (submitted m reqs) = map (fun r => Some (queued_for r)) (drop m reqs).
Proof.
  unfold pending, submitted. cbn [imageQueue objects].
  pose proof (lookup_all_seq [] (map queued_for (drop m reqs))) as H.
  cbn [app length] in H. rewrite length_map in H. rewrite H.
  rewrite map_map. reflexivity.
Qed.

Lemma run_snoc (es : list Event) (e : Event) (s : State) :
  run (es ++ [e]) s = step (run es s) e.
Proof. unfold ImageQueue.run. rewrite fold_left_app. reflexivity. Qed.

Lemma run_app (es1 es2 : list Event) (s : State) :
  run (es1 ++ es2) s = run es2 (run es1 s).
Proof. unfold ImageQueue.run. apply fold_left_app. Qed.

Lemma run_submissions (reqs : list (RequestParameters * CallbackId)) :
  (0 <= MAX)%Z ->
  run (map submit reqs) initial = submitted (Z.to_nat MAX) reqs.
Proof.
  intros H0. induction reqs as [|x l IH] using rev_ind.
  - unfold submitted. rewrite take_nil, drop_nil. reflexivity.
  - rewrite map_app. cbn [map]. rewrite run_snoc, IH.
    cbn [ImageQueue.step submit].
    destruct (getImage_cases (fst x) (snd x) (submitted (Z.to_nat MAX) l))
      as [[Hn ->]|[Hn ->]]; cbn [fst].
    + cbn [submitted numImageRequests] in Hn. rewrite length_take in Hn.
      assert (Z.to_nat MAX <= length l) as Hl by lia.
      unfold submitted, set_imageQueue, set_objects; cbn.
      rewrite (take_app_le l [x]) by exact Hl.
      rewrite (drop_app_le l [x]) by exact Hl.
      rewrite map_app, !length_map, length_app. cbn [length map].
      rewrite Nat.add_1_r, seq_S. destruct x; reflexivity.
    + cbn [submitted numImageRequests] in Hn. rewrite length_take in Hn.
      assert (length l < Z.to_nat MAX) as Hl by lia.
      unfold submitted, set_activations, set_numImageRequests; cbn.
      rewrite (take_ge l) by lia.
      rewrite (take_ge (l ++ [x])) by (rewrite length_app; cbn [length]; lia).
      rewrite (drop_ge l) by lia.
      rewrite (drop_ge (l ++ [x])) by (rewrite length_app; cbn [length]; lia).
      rewrite map_app, length_app. cbn [length map].
      replace (Z.of_nat (length l + 1)) with (Z.of_nat (length l) + 1)%Z by lia.
      destruct x; reflexivity.
Qed.

(** C1: [numImageRequests] never exceeds the ceiling, whatever happens;
    and when more requests than the ceiling are submitted to a freshly
    loaded module and none completes, exactly as many as the ceiling are
    dispatched, in the order they came, and the others are in [imageQueue]
    in the order they came. *)
Theorem submissions_respect_ceiling (reqs : list (RequestParameters * CallbackId)) :
  (0 <= MAX)%Z ->
  (MAX < Z.of_nat (length reqs))%Z ->
  let s := run (map submit reqs) initial in
  (forall es : list Event, (numImageRequests (run es initial) <= MAX)%Z)
  /\ numImageRequests s = MAX
  /\ activations s = map activation_for (take (Z.to_nat MAX) reqs)
  /\ length (activations s) = Z.to_nat MAX
  /\ pending s = map (fun r => Some (queued_for r)) (drop (Z.to_nat MAX) reqs)
  /\ length (imageQueue s) = length reqs - Z.to_nat MAX
  /\ log s = [].
Proof.
  intros H0 HN. cbn zeta. rewrite run_submissions by exact H0.
  split; [|split; [|split; [|split; [|split; [|split]]]]].
  - intros es. apply (changes_ceiling true initial); [exact H0 | | exact H0].
    apply run_mutates. reflexivity.
  - cbn [submitted numImageRequests]. rewrite length_take. lia.
  - reflexivity.
  - cbn [submitted activations]. rewrite length_map, length_take. lia.
  - apply pending_submitted.
  - cbn [submitted imageQueue]. rewrite length_seq, length_drop. reflexivity.
  - reflexivity.
Qed.

(** *** Cancelling an active request *)

Lemma drain_log (fuel : nat) (s : State) : log (drain fuel s) = log s.
Proof. apply (drain_preserves (fun s' => log s' = log s)); auto. Qed.

Lemma drain_images (fuel : nat) (s : State) : images (drain fuel s) = images s.
Proof. apply (drain_preserves (fun s' => images s' = images s)); auto. Qed.

(** Every dispatch of the loop adds one activation and one to the
    counter. *)
Lemma drain_dispatched (fuel : nat) (s : State) :
  length (activations s) <= length (activations (drain fuel s))
  /\ numImageRequests (drain fuel s) =
       (numImageRequests s
        + Z.of_nat (length (activations (drain fuel s)) - length (activations s)))%Z.
Proof.
  apply (drain_preserves
           (fun s' => length (activations s) <= length (activations s')
                      /\ numImageRequests s' =
                           (numImageRequests s
                            + Z.of_nat (length (activations s') - length (activations s)))%Z)).
  - auto.
  - auto.
  - intros s' p cb _ [Hl Hn]. cbn. rewrite length_app. cbn [length]. lia.
  - split; [lia | rewrite Nat.sub_diag; lia].
Qed.

Lemma drain_activations (fuel : nat) (s : State) (k : nat) (a : Activation) :
  activations s !! k = Some a -> activations (drain fuel s) !! k = Some a.
Proof.
  intros H. apply (drain_preserves (fun s' => activations s' !! k = Some a)); auto.
  intros s' p cb _ H'. cbn. apply lookup_app_l_Some, H'.
Qed.

Lemma advance_noop (k : nat) (s : State) (a : Activation) :
  activations s !! k = Some a -> advanced a = true ->
  advanceImageRequestQueue k s = (s, false).
Proof.
  intros Ha Had. unfold ImageQueue.advanceImageRequestQueue. rewrite Ha, Had. reflexivity.
Qed.

(** What the first pass of [advanceImageRequestQueue] does when the
    counter is positive. *)
Lemma advance_first (k : nat) (s : State) (a : Activation) :
  activations s !! k = Some a -> advanced a = false ->
  (1 <= numImageRequests s)%Z ->
  advanceImageRequestQueue k s =
    (drain (length (imageQueue s))
       (emit [ObsAdvance k]
          (set_numImageRequests (numImageRequests s - 1)
             (set_activations (<[k := set_advanced true a]> (activations s)) s))),
     false).
Proof.
  intros Ha Had Hn. unfold ImageQueue.advanceImageRequestQueue. rewrite Ha, Had.
  cbn [numImageRequests emit set_numImageRequests set_activations imageQueue].
  destruct (Z.leb_spec 0 (numImageRequests s - 1)); [reflexivity | lia].
Qed.

(** A cancel or a response of an activation that has advanced leaves the
    counter and the queue alone. *)
Lemma cancel_active_again (k c : nat) (s : State) :
  advanced_at k c s ->
  numImageRequests (cancel_active k s) = numImageRequests s
  /\ imageQueue (cancel_active k s) = imageQueue s
  /\ length (activations (cancel_active k s)) = length (activations s)
  /\ objects (cancel_active k s) = objects s
  /\ log (cancel_active k s) = log s ++ [ObsAbort k].
Proof.
  intros [(a & Ha & Had) _]. unfold ImageQueue.cancel_active. rewrite Ha.
  erewrite advance_noop.
  - cbn. rewrite length_insert. auto.
  - cbn. apply list_lookup_insert_eq. eapply lookup_lt_Some, Ha.
  - exact Had.
Qed.

Lemma onResponse_again (k c : nat) (r : ResponseArgs) (s : State) :
  advanced_at k c s ->
  numImageRequests (onResponse k r s) = numImageRequests s
  /\ imageQueue (onResponse k r s) = imageQueue s
  /\ activations (onResponse k r s) = activations s
  /\ objects (onResponse k r s) = objects s.
Proof.
  intros [(a & Ha & Had) _]. unfold ImageQueue.onResponse.
  rewrite (advance_noop k s a Ha Had). rewrite Ha.
  destruct (err r); [cbn; auto|]. destruct (data r); cbn; auto.
Qed.

Lemma cancel_active_iter (k c n : nat) (s : State) :
  advanced_at k c s ->
  numImageRequests (Nat.iter n (cancel_active k) s) = numImageRequests s
  /\ imageQueue (Nat.iter n (cancel_active k) s) = imageQueue s
  /\ objects (Nat.iter n (cancel_active k) s) = objects s
  /\ advanced_at k c (Nat.iter n (cancel_active k) s).
Proof.
  intros H. induction n as [|n IH]; [cbn; auto|].
  destruct IH as (IH1 & IH2 & IH3 & IH4).
  change (Nat.iter (S n) (cancel_active k) s)
    with (cancel_active k (Nat.iter n (cancel_active k) s)).
  destruct (cancel_active_again k c _ IH4) as (E1 & E2 & _ & E3 & _).
  rewrite E1, E2, E3. repeat split; try assumption.
  - exact (proj1 (changes_advanced_at true k c _ _
                    (cancel_active_mutates true k _) IH4)).
  - exact (proj2 (changes_advanced_at true k c _ _
                    (cancel_active_mutates true k _) IH4)).
Qed.

(** C3: cancelling the handle of an activation that has not advanced yet
    decrements the counter once and runs the drain loop once, to its end
    (the counter, which counts the activation, is positive); whatever happens
    afterwards, further cancels and a response of that activation
    included, [advanceImageRequestQueue] of that activation never goes past
    its guard again, and further cancels and responses of it leave the
    counter and the queue as they are. *)
Theorem cancel_active_advances_once (s : State) (k : nat) (a : Activation) :
  activations s !! k = Some a -> advanced a = false ->
  (1 <= numImageRequests s)%Z ->
  let s1 := cancel_handle (HActive k) s in
  advances k s1 = advances k s + 1
  /\ count is_assertion_error (log s1) = count is_assertion_error (log s)
  /\ numImageRequests s1 =
       (numImageRequests s - 1
        + Z.of_nat (length (activations s1) - length (activations s)))%Z
  /\ (imageQueue s1 = [] \/ (MAX <= numImageRequests s1)%Z)
  /\ (forall es : list Event, advances k (run es s1) = advances k s + 1)
  /\ (forall n : nat,
        numImageRequests (Nat.iter n (cancel_handle (HActive k)) s1) = numImageRequests s1
        /\ imageQueue (Nat.iter n (cancel_handle (HActive k)) s1) = imageQueue s1)
  /\ (forall r : ResponseArgs,
        numImageRequests (onResponse k r s1) = numImageRequests s1
        /\ imageQueue (onResponse k r s1) = imageQueue s1).
Proof.
  intros Ha Had Hn. cbn zeta.
  change (cancel_handle (HActive k)) with (cancel_active k).
  assert (Hlen : k < length (activations s)) by (eapply lookup_lt_Some, Ha).
  set (s0 := emit [ObsAbort k]
               (set_activations (<[k := set_request_cancelled true a]> (activations s)) s)).
  assert (Ha0 : activations s0 !! k = Some (set_request_cancelled true a)).
  { cbn. apply list_lookup_insert_eq, Hlen. }
  assert (E : cancel_active k s =
              drain (length (imageQueue s0))
                (emit [ObsAdvance k]
                   (set_numImageRequests (numImageRequests s0 - 1)
                      (set_activations
                         (<[k := set_advanced true (set_request_cancelled true a)]>
                            (activations s0)) s0)))).
  { unfold ImageQueue.cancel_active. rewrite Ha. fold s0.
    rewrite (advance_first k s0 _ Ha0 Had Hn). reflexivity. }
  set (s2 := emit [ObsAdvance k] _) in E.
  assert (Hdone : advanced_at k (advances k s + 1) (cancel_active k s)).
  { rewrite E. apply (changes_advanced_at true k _ s2); [apply drain_mutates|].
    split.
    - exists (set_advanced true (set_request_cancelled true a)). split; [|reflexivity].
      cbn. apply list_lookup_insert_eq. rewrite length_insert. exact Hlen.
    - unfold advances. cbn. rewrite !count_app. cbn. rewrite Nat.eqb_refl. lia. }
  split; [exact (proj2 Hdone)|].
  split; [rewrite E, drain_log; cbn; rewrite !count_app; cbn; lia|].
  split.
  { rewrite E. destruct (drain_dispatched (length (imageQueue s0)) s2) as [_ ->].
    cbn. rewrite !length_insert. lia. }
  split; [rewrite E; apply drain_complete; cbn; lia|].
  split.
  { intros es. exact (proj2 (changes_advanced_at true k _ _ _
                                (run_mutates true es _ (fun _ => eq_refl)) Hdone)). }
  split.
  - intros n. destruct (cancel_active_iter k _ n _ Hdone) as (H1 & H2 & _). auto.
  - intros r. destruct (onResponse_again k _ r _ Hdone) as (H1 & H2 & _). auto.
Qed.

(** *** Cancelling a queued request *)

Lemma alter_lookup {A : Type} (f : A -> A) (l : list A) (i : nat) (x : A) :
  l !! i = Some x -> alter f i l = <[i := f x]> l.
Proof.
  revert i. induction l as [|y l IH]; intros [|i] H; simpl in *; try discriminate.
  - injection H as ->. reflexivity.
  - f_equal. apply IH, H.
Qed.

Lemma set_objects_same (s : State) : set_objects (objects s) s = s.
Proof. destruct s; reflexivity. Qed.

Lemma set_cancelled_same (q : Queued) :
  cancelled q = true -> set_cancelled true q = q.
Proof. destruct q; simpl; intros ->; reflexivity. Qed.

(** C4, as the code has it.  A request submitted at the ceiling is
    appended to the queue and the entry itself is the handle.  While the
    [cancel] of the entry is the method it was created with, [cancel()]
    only sets the [cancelled] flag, doing so twice is doing so once, and on
    an entry that is cancelled already it changes nothing.  When the drain
    loop shifts the entry it discards a cancelled one, and it dispatches
    one that is not cancelled and assigns the [cancel] of the new
    activation to it: from then on [cancel()] of the handle is the cancel of
    the request in flight. *)
Theorem queued_handle_cancel (s : State) (p : RequestParameters) (cb : CallbackId) :
  (MAX <= numImageRequests s)%Z ->
  let s1 := fst (getImage p cb s) in
  let h := snd (getImage p cb s) in
  let o := length (objects s) in
  (h = HQueued o
   /\ objects s1 = objects s ++ [queued_for (p, cb)]
   /\ imageQueue s1 = imageQueue s ++ [o]
   /\ numImageRequests s1 = numImageRequests s
   /\ activations s1 = activations s
   /\ log s1 = log s)
  /\ (forall (t : State) (q : Queued),
        objects t !! o = Some q -> cancel q = cancel_method ->
        cancel_handle h t = set_objects (<[o := set_cancelled true q]> (objects t)) t
        /\ cancel_handle h (cancel_handle h t) = cancel_handle h t
        /\ (cancelled q = true -> cancel_handle h t = t))
  /\ (forall (t : State) (q : Queued) (rest : list nat) (fuel : nat),
        imageQueue t = o :: rest -> (numImageRequests t < MAX)%Z ->
        objects t !! o = Some q ->
        (cancelled q = true -> drain (S fuel) t = drain fuel (set_imageQueue rest t))
        /\ (cancelled q = false ->
            drain (S fuel) t =
              drain fuel
                (set_objects
                   (<[o := set_cancel (cancel_closure (length (activations t))) q]>
                      (objects t))
                   (set_activations
                      (activations t ++
                         [activation_for (requestParameters q, callback q)])
                      (set_numImageRequests (numImageRequests t + 1)
                         (set_imageQueue rest t))))))
  /\ (forall (t : State) (q : Queued) (k : nat),
        objects t !! o = Some q -> cancel q = cancel_closure k ->
        cancel_handle h t = cancel_active k t).
Proof.
  intros Hn. cbn zeta. rewrite (getImage_queues p cb s Hn). cbn [fst snd].
  split; [repeat split|]. split; [|split].
  - intros t q Hq Hc.
    assert (E : cancel_handle (HQueued (length (objects s))) t =
                set_objects (<[length (objects s) := set_cancelled true q]> (objects t)) t).
    { cbn [ImageQueue.cancel_handle]. rewrite Hq, Hc. cbn [ImageQueue.call_cancel].
      rewrite (alter_lookup _ _ _ q Hq). reflexivity. }
    split; [exact E|]. split.
    + rewrite E. cbn [ImageQueue.cancel_handle objects set_objects].
      rewrite list_lookup_insert_eq by (eapply lookup_lt_Some, Hq).
      cbn [cancel set_cancelled]. rewrite Hc. cbn [ImageQueue.call_cancel].
      unfold set_objects. cbn. f_equal.
      erewrite alter_lookup
        by (apply list_lookup_insert_eq; eapply lookup_lt_Some, Hq).
      rewrite list_insert_insert_eq. reflexivity.
    + intros Hcd. rewrite E. rewrite (set_cancelled_same q Hcd).
      rewrite list_insert_id by exact Hq. apply set_objects_same.
  - intros t q rest fuel Hqueue Hlt Hq. cbn [ImageQueue.drain]. rewrite Hqueue.
    destruct (Z.ltb_spec (numImageRequests t) MAX) as [_|Hge]; [|lia].
    cbn [objects set_imageQueue]. rewrite Hq. split; intros Hc; rewrite Hc; cbn [negb].
    + reflexivity.
    + rewrite getImage_dispatches by exact Hlt. cbn [ImageQueue.cancel_of].
      cbn [objects set_activations set_numImageRequests set_imageQueue activations].
      rewrite (alter_lookup _ _ _ q Hq). reflexivity.
  - intros t q k Hq Hc. cbn [ImageQueue.cancel_handle]. rewrite Hq, Hc. reflexivity.
Qed.

(** *** Empty payloads *)

(** C8: when the transport of an activation calls back without error and
    with a payload of length zero, the image that is created has the
    placeholder as its source, no callback is invoked yet, and when that
    image settles the callback of the request receives that image; the
    decode error is not delivered.  The counter is assumed to be positive
    while the activation has not advanced, and the platform is assumed to
    load the placeholder. *)
Theorem empty_payload_yields_placeholder
    (s : State) (k : nat) (a : Activation) (r : ResponseArgs) (d : ArrayBuffer) :
  activations s !! k = Some a ->
  (advanced a = false -> (1 <= numImageRequests s)%Z) ->
  err r = None -> data r = Some d -> byteLength d = 0 ->
  decodes transparentPngUrl = true ->
  let s1 := onResponse k r s in
  let i := length (images s) in
  let loading := {| img := placeholder (cacheControl r) (expires r);
                    img_callback := a_callback a; settled := false |} in
  images s1 = images s ++ [loading]
  /\ images s1 !! i = Some loading
  /\ (forall cb, calls cb s1 = calls cb s)
  /\ (forall t : State,
        images t !! i = Some loading ->
        log (onImageSettled i t) =
          log t ++ [ObsCallback (a_callback a)
                      (CbImage (placeholder (cacheControl r) (expires r)));
                    ObsRevoke transparentPngUrl]
        /\ calls (a_callback a) (onImageSettled i t) = calls (a_callback a) t + 1).
Proof.
  intros Ha Hpos He Hd Hlen Hdec. cbn zeta.
  assert (Hresp : exists s', advanceImageRequestQueue k s = (s', false)
                    /\ images s' = images s
                    /\ (forall cb, calls cb s' = calls cb s)
                    /\ exists a', activations s' !! k = Some a'
                                   /\ a_callback a' = a_callback a).
  { destruct (advanced a) eqn:Had.
    - exists s. rewrite (advance_noop k s a Ha Had). eauto 6.
    - rewrite (advance_first k s a Ha Had (Hpos eq_refl)). eexists. split; [reflexivity|].
      split; [rewrite drain_images; reflexivity|]. split.
      + intros cb. unfold calls. rewrite drain_log. cbn. rewrite count_app. cbn. lia.
      + exists (set_advanced true a). split; [|reflexivity].
        apply drain_activations. cbn. apply list_lookup_insert_eq.
        eapply lookup_lt_Some, Ha. }
  destruct Hresp as (s' & Eadv & Himg & Hcalls & a' & Ha' & Hcb).
  unfold ImageQueue.onResponse. rewrite Eadv, Ha', He, Hd.
  unfold byteLength in Hlen. unfold byteLength. rewrite Hlen. cbn [Nat.ltb Nat.leb].
  split; [|split; [|split]].
  - cbn. rewrite Himg, Hcb. reflexivity.
  - cbn. rewrite Himg, Hcb. rewrite lookup_app_r by lia.
    rewrite Nat.sub_diag. reflexivity.
  - intros cb. unfold calls in *. cbn. apply Hcalls.
  - intros t Ht. unfold ImageQueue.onImageSettled. rewrite Ht.
    cbn [settled img src placeholder img_callback]. rewrite Hdec.
    split; [reflexivity|]. unfold calls. cbn. rewrite count_app. cbn.
    rewrite Nat.eqb_refl. lia.
Qed.

End QueueProperties.

Lemma submissions_respect_ceiling_witness :
  let reqs := map (fun i => (Examples.get "tile.png", i)) (seq 0 18) in
  let s := ImageQueue.run Config.config Examples.decodes_all
             (map ImageQueue.submit reqs) ImageQueue.initial in
  ImageQueue.numImageRequests s = 16%Z /\ length (ImageQueue.imageQueue s) = 2.
Proof.
  cbn zeta.
  destruct (submissions_respect_ceiling Config.config Examples.decodes_all
              (map (fun i => (Examples.get "tile.png", i)) (seq 0 18)))
    as (_ & Hn & _ & _ & _ & Hq & _).
  - vm_compute. discriminate.
  - vm_compute. reflexivity.
  - split; [exact Hn | exact Hq].
Defined.

Lemma cancel_active_advances_once_witness :
  let s := ImageQueue.run Examples.ceiling_2 Examples.decodes_all
             [ImageQueue.Submit (Examples.get "a.png") 1;
              ImageQueue.Submit (Examples.get "b.png") 2;
              ImageQueue.Submit (Examples.get "c.png") 3] ImageQueue.initial in
  let s1 := ImageQueue.cancel_handle Examples.ceiling_2 (ImageQueue.HActive 0) s in
  ImageQueue.advances 0 s1 = 1
  /\ forall es, ImageQueue.advances 0
                  (ImageQueue.run Examples.ceiling_2 Examples.decodes_all es s1) = 1.
Proof.
  cbn zeta.
  destruct (cancel_active_advances_once Examples.ceiling_2 Examples.decodes_all
              (ImageQueue.run Examples.ceiling_2 Examples.decodes_all
                 [ImageQueue.Submit (Examples.get "a.png") 1;
                  ImageQueue.Submit (Examples.get "b.png") 2;
                  ImageQueue.Submit (Examples.get "c.png") 3] ImageQueue.initial)
              0 (ImageQueue.activation_for (Examples.get "a.png", 1)))
    as (H1 & _ & _ & _ & H2 & _).
  - reflexivity.
  - reflexivity.
  - vm_compute. discriminate.
  - split; [exact H1 | exact H2].
Defined.

Lemma queued_handle_cancel_witness :
  let s := ImageQueue.run Examples.ceiling_1 Examples.decodes_all
             [ImageQueue.Submit (Examples.get "a.png") 1] ImageQueue.initial in
  snd (ImageQueue.getImage Examples.ceiling_1 (Examples.get "b.png") 2 s)
  = ImageQueue.HQueued 0.
Proof.
  cbn zeta.
  refine (proj1 (proj1 (queued_handle_cancel Examples.ceiling_1
                          (ImageQueue.run Examples.ceiling_1 Examples.decodes_all
                             [ImageQueue.Submit (Examples.get "a.png") 1]
                             ImageQueue.initial)
                          (Examples.get "b.png") 2 _))).
  vm_compute. discriminate.
Defined.

Lemma empty_payload_yields_placeholder_witness :
  let s := ImageQueue.run Config.config Examples.decodes_all
             [ImageQueue.Submit (Examples.get "a.png") 1] ImageQueue.initial in
  let s1 := ImageQueue.onResponse Config.config 0 Examples.empty_payload s in
  ImageQueue.log (ImageQueue.onImageSettled Examples.decodes_all 0 s1)
  = ImageQueue.log s1
    ++ [ImageQueue.ObsCallback 1 (ImageQueue.CbImage (ImageQueue.placeholder None None));
        ImageQueue.ObsRevoke ImageQueue.transparentPngUrl].
Proof.
  cbn zeta.
  destruct (empty_payload_yields_placeholder Config.config Examples.decodes_all
              (ImageQueue.run Config.config Examples.decodes_all
                 [ImageQueue.Submit (Examples.get "a.png") 1] ImageQueue.initial)
              0 (ImageQueue.activation_for (Examples.get "a.png", 1))
              Examples.empty_payload [])
    as (_ & Hl & _ & Hs).
  - reflexivity.
  - intros _. vm_compute. discriminate.
  - reflexivity.
  - reflexivity.
  - reflexivity.
  - reflexivity.
  - exact (proj1 (Hs _ Hl)).
Defined.

(** *** The scenario with a ceiling of two *)

Section Scenario.

Import ImageQueue.

Variable decodes : ImgSrc -> bool.
Variables p1 p2 p3 p4 p5 : RequestParameters.
Variables o1 o2 o3 o5 : Outcome.

Local Abbreviation run := (ImageQueue.run Examples.ceiling_2 decodes).
Local Abbreviation getImage := (ImageQueue.getImage Examples.ceiling_2).

(** C2: with a ceiling of two, of the requests R1 to R5 submitted in this
    order (with the callbacks 1 to 5) R1 and R2 are dispatched and R3, R4,
    R5 are queued; the completion of R1 dispatches R3; R4 is cancelled while
    queued; the completion of R2 then dispatches R5 and discards R4; when
    R3 and R5 have completed too and all images have settled, the callbacks
    1, 2, 3 and 5 have been invoked once each and callback 4 never. *)
Theorem scenario_ceiling_2 :
  let s3 := run [Submit p1 1; Submit p2 2; Submit p3 3] initial in
  let h4 := snd (getImage p4 4 s3) in
  let s5 := run [Submit p4 4; Submit p5 5] s3 in
  let s6 := run [Respond 0 (response_of o1)] s5 in
  let s7 := run [CancelHandle h4] s6 in
  let s8 := run [Respond 1 (response_of o2)] s7 in
  let s9 := run [Respond 2 (response_of o3); Respond 3 (response_of o5)] s8 in
  let s10 := run [ImageSettled 0; ImageSettled 1; ImageSettled 2; ImageSettled 3] s9 in
  (map a_callback (activations s5) = [1; 2]
   /\ map (fmap callback) (pending s5) = [Some 3; Some 4; Some 5]
   /\ numImageRequests s5 = 2%Z)
  /\ (map a_callback (activations s6) = [1; 2; 3]
      /\ map (fmap callback) (pending s6) = [Some 4; Some 5]
      /\ numImageRequests s6 = 2%Z)
  /\ (h4 = HQueued 1
      /\ map (fmap (fun q => (callback q, cancelled q))) (pending s7)
         = [Some (4, true); Some (5, false)]
      /\ activations s7 = activations s6)
  /\ (map a_callback (activations s8) = [1; 2; 3; 5]
      /\ pending s8 = []
      /\ numImageRequests s8 = 2%Z)
  /\ (calls 1 s10 = 1 /\ calls 2 s10 = 1 /\ calls 3 s10 = 1 /\ calls 5 s10 = 1
      /\ calls 4 s10 = 0
      /\ numImageRequests s10 = 0%Z
      /\ no_assertion_error s10).
Proof.
  cbn zeta. split; [|split; [|split; [|split]]].
  1-4: destruct o1, o2; vm_compute; repeat split; reflexivity.
  cbn [ImageQueue.run fold_left ImageQueue.step].
  destruct o1 as [e1|d1 c1 x1], o2 as [e2|d2 c2 x2],
           o3 as [e3|d3 c3 x3], o5 as [e5|d5 c5 x5];
    match goal with
    | |- context [ImageQueue.onImageSettled decodes 0 ?S] =>
        let v := eval vm_compute in S in
        replace S with v by (vm_compute; reflexivity)
    end;
    settle 0; settle 1; settle 2; settle 3;
    vm_compute; repeat split; reflexivity.
Qed.

End Scenario.

(** *** Resetting the queue while a request is in flight *)

(** C10 fails: when the queue is reset while a request is in flight, the
    completion of that request takes the counter to -1 and the assertion
    throws; the callback of the request is not invoked. *)
Theorem reset_in_flight_breaks_assertion
    (decodes : ImageQueue.ImgSrc -> bool) (p : RequestParameters)
    (cb : ImageQueue.CallbackId) (r : ImageQueue.ResponseArgs) :
  let s := ImageQueue.run Config.config decodes
             [ImageQueue.Submit p cb; ImageQueue.Reset; ImageQueue.Respond 0 r]
             ImageQueue.initial in
  ImageQueue.numImageRequests s = (-1)%Z
  /\ ImageQueue.log s = [ImageQueue.ObsAdvance 0; ImageQueue.ObsAssertionError]
  /\ ImageQueue.calls cb s = 0.
Proof. cbn zeta. repeat split; reflexivity. Qed.

(** The same happens when the handle of that request is cancelled. *)
Lemma reset_in_flight_cancel_breaks_assertion
    (decodes : ImageQueue.ImgSrc -> bool) (p : RequestParameters)
    (cb : ImageQueue.CallbackId) :
  let s := ImageQueue.run Config.config decodes
             [ImageQueue.Submit p cb; ImageQueue.Reset;
              ImageQueue.CancelHandle (ImageQueue.HActive 0)]
             ImageQueue.initial in
  ImageQueue.numImageRequests s = (-1)%Z
  /\ ImageQueue.log s = [ImageQueue.ObsAbort 0; ImageQueue.ObsAdvance 0;
                         ImageQueue.ObsAssertionError].
Proof. cbn zeta. repeat split; reflexivity. Qed.

(** *** Cancelling a handle after its request has left the queue *)

(** C4 does not hold as stated: with a ceiling of one, the second request
    is queued; when the first has completed, the second is in flight, and
    cancelling the handle that was returned for it aborts its transport and
    takes the counter from one to zero. *)
Lemma cancel_after_dispatch_has_effect :
  let run := ImageQueue.run Examples.ceiling_1 Examples.decodes_all in
  let s1 := run [ImageQueue.Submit (Examples.get "a.png") 1] ImageQueue.initial in
  let submission := ImageQueue.getImage Examples.ceiling_1 (Examples.get "b.png") 2 s1 in
  let h := snd submission in
  let s3 := run [ImageQueue.Respond 0 Examples.failure] (fst submission) in
  (Config.MAX_PARALLEL_IMAGE_REQUESTS Examples.ceiling_1
     <= ImageQueue.numImageRequests s1)%Z
  /\ h = ImageQueue.HQueued 0
  /\ ImageQueue.imageQueue s3 = []
  /\ map ImageQueue.a_callback (ImageQueue.activations s3) = [1; 2]
  /\ ImageQueue.numImageRequests s3 = 1%Z
  /\ ImageQueue.numImageRequests (ImageQueue.cancel_handle Examples.ceiling_1 h s3) = 0%Z
  /\ ImageQueue.log (ImageQueue.cancel_handle Examples.ceiling_1 h s3)
     = ImageQueue.log s3 ++ [ImageQueue.ObsAbort 1; ImageQueue.ObsAdvance 1]
  /\ ImageQueue.cancel_handle Examples.ceiling_1 h s3 <> s3.
Proof.
  cbn zeta. split; [vm_compute; discriminate|].
  do 6 (split; [reflexivity|]).
  vm_compute. discriminate.
Qed.

(** * Further properties *)

(** ** The transports *)

Section TransportProperties.

Import Ajax.

Variable isMapboxHTTPURL : string -> bool.
Variable JSON_parse : string -> JSONValue + string.
Variable AbortError_message : string.
Variable TypeError_message : string.
Variable callback_throws : CallbackArgs -> option Rejection.

Local Abbreviation xhr_onload := (Ajax.xhr_onload isMapboxHTTPURL JSON_parse).
Local Abbreviation fetch_then :=
  (Ajax.fetch_then isMapboxHTTPURL TypeError_message callback_throws).
Local Abbreviation body_then := (Ajax.body_then callback_throws).
Local Abbreviation invoke_caught := (Ajax.invoke_caught callback_throws).
Local Abbreviation step :=
  (Ajax.step isMapboxHTTPURL JSON_parse AbortError_message TypeError_message
     callback_throws).
Local Abbreviation run :=
  (Ajax.run isMapboxHTTPURL JSON_parse AbortError_message TypeError_message
     callback_throws).

Lemma error_call (e : JsError) : Forall error_alone [callback_error e].
Proof.
  constructor; [|constructor]. intros _. repeat split.
Qed.

Lemma data_call (d : Body) (cc ex : option string) :
  Forall error_alone [callback_data d cc ex].
Proof.
  constructor; [|constructor]. intros H. contradiction H. reflexivity.
Qed.

Lemma xhr_onload_one (p : RequestParameters) (xhr : XHR) :
  length (xhr_onload p xhr) = 1 /\ Forall error_alone (xhr_onload p xhr).
Proof.
  unfold Ajax.xhr_onload.
  destruct (response xhr) as [resp|] eqn:Er; cbn [not_null];
    [|rewrite andb_false_r; split; [reflexivity | apply error_call]].
  rewrite andb_true_r.
  destruct (((200 <=? status xhr)%Z && (status xhr <? 300)%Z) || (status xhr =? 0)%Z);
    [|split; [reflexivity | apply error_call]].
  destruct (type p) as [[]|];
    try (split; [reflexivity | apply data_call]).
  destruct (JSON_parse (response_to_string (Some resp)));
    (split; [reflexivity|]); [apply data_call | apply error_call].
Qed.

Lemma fetch_catch_short (e : Rejection) :
  length (fetch_catch e) <= 1 /\ Forall error_alone (fetch_catch e).
Proof.
  unfold fetch_catch. destruct (code e) as [c|]; [destruct (c =? 20)%Z|]; simpl;
    (split; [lia|]); try apply error_call; constructor.
Qed.

Lemma body_catch_one (e : Rejection) :
  length (body_catch e) = 1 /\ Forall error_alone (body_catch e).
Proof. split; [reflexivity | apply error_call]. Qed.

Lemma invoke_caught_short (a : CallbackArgs) (catch : Rejection -> list CallbackArgs) :
  error_alone a ->
  (forall e, length (catch e) <= 1 /\ Forall error_alone (catch e)) ->
  length (invoke_caught a catch) <= 2
  /\ (callback_throws a = None -> length (invoke_caught a catch) = 1)
  /\ Forall error_alone (invoke_caught a catch).
Proof.
  intros Ha Hc. unfold Ajax.invoke_caught.
  destruct (callback_throws a) as [thrown|].
  - destruct (Hc thrown) as [H1 H2]. cbn [length].
    split; [lia|]. split; [discriminate|]. constructor; assumption.
  - split; [cbn; lia|]. split; [reflexivity|]. constructor; [assumption | constructor].
Qed.

Lemma error_args_alone (e : JsError) : error_alone (callback_error e).
Proof. intros _. repeat split. Qed.

Lemma data_args_alone (d : Body) (cc ex : option string) :
  error_alone (callback_data d cc ex).
Proof. intros H. contradiction H. reflexivity. Qed.

Lemma body_catch_short (e : Rejection) :
  length (body_catch e) <= 1 /\ Forall error_alone (body_catch e).
Proof. destruct (body_catch_one e) as [-> H]. split; [lia | exact H]. Qed.

Lemma fetch_then_short (p : RequestParameters) (r : Response) :
  length (snd (fetch_then p r)) + callback_bound (FetchRequest p (fst (fetch_then p r))) <= 2
  /\ ((forall a, callback_throws a = None) ->
      length (snd (fetch_then p r))
      + pending_callbacks (FetchRequest p (fst (fetch_then p r))) <= 1)
  /\ Forall error_alone (snd (fetch_then p r)).
Proof.
  unfold Ajax.fetch_then. destruct (ok r).
  - destruct (body_reader p); cbn [fst snd callback_bound pending_callbacks length].
    + split; [lia|]. split; [intros; lia | constructor].
    + destruct (fetch_catch_short (TypeError TypeError_message)) as [H1 H2].
      split; [lia|]. split; [intros; lia | exact H2].
  - cbn [fst snd callback_bound pending_callbacks].
    match goal with
    | |- context [Ajax.invoke_caught _ ?a ?c] =>
        destruct (invoke_caught_short a c (error_args_alone _) fetch_catch_short)
          as (H1 & H2 & H3)
    end.
    split; [lia|]. split; [|exact H3]. intros Hn. rewrite H2 by apply Hn. lia.
Qed.

Lemma body_then_short (r : Response) (b : Body) :
  length (body_then r b) <= 2
  /\ ((forall a, callback_throws a = None) -> length (body_then r b) = 1)
  /\ Forall error_alone (body_then r b).
Proof.
  unfold Ajax.body_then.
  match goal with
  | |- context [Ajax.invoke_caught _ ?a ?c] =>
      destruct (invoke_caught_short a c (data_args_alone _ _ _) body_catch_short)
        as (H1 & H2 & H3)
  end.
  split; [exact H1|]. split; [|exact H3]. intros Hn. apply H2, Hn.
Qed.

(** One event uses up what it invokes. *)
Lemma step_budget (r : Request) (e : Event) :
  length (snd (step r e)) + callback_bound (fst (step r e)) <= callback_bound r
  /\ ((forall a, callback_throws a = None) ->
      length (snd (step r e)) + pending_callbacks (fst (step r e))
      <= pending_callbacks r)
  /\ Forall error_alone (snd (step r e)).
Proof.
  destruct r as [p [|resp|]|op p|p []]; destruct e;
    cbn [Ajax.step fst snd length pending_callbacks callback_bound];
    try (split; [lia|]; split; [intros; lia | constructor]).
  - pose proof (fetch_then_short p r) as (H1 & H2 & H3).
    destruct (fetch_then p r) as [ph out]. cbn [fst snd] in *.
    split; [exact H1|]. split; [exact H2 | exact H3].
  - destruct (fetch_catch_short e) as [H1 H2].
    split; [lia|]. split; [intros; lia | exact H2].
  - destruct (fetch_catch_short (AbortError AbortError_message)) as [H1 H2].
    split; [lia|]. split; [intros; lia | exact H2].
  - destruct (body_then_short resp b) as (H1 & H2 & H3).
    split; [lia|]. split; [|exact H3]. intros Hn. rewrite H2 by exact Hn. lia.
  - destruct (body_catch_one e) as [H1 H2]. rewrite H1.
    split; [lia|]. split; [intros; lia | exact H2].
  - destruct (body_catch_one (AbortError AbortError_message)) as [H1 H2]. rewrite H1.
    split; [lia|]. split; [intros; lia | exact H2].
  - destruct (xhr_onload_one p xhr) as [H1 H2]. rewrite H1.
    split; [lia|]. split; [intros; lia | exact H2].
  - cbn. split; [lia|]. split; [intros; lia | apply error_call].
Qed.

Lemma run_budget (es : list Event) (r : Request) :
  length (snd (run r es)) + callback_bound (fst (run r es)) <= callback_bound r
  /\ ((forall a, callback_throws a = None) ->
      length (snd (run r es)) + pending_callbacks (fst (run r es))
      <= pending_callbacks r)
  /\ Forall error_alone (snd (run r es)).
Proof.
  revert r. induction es as [|e es IH]; intros r; cbn [Ajax.run].
  - cbn. split; [lia|]. split; [intros; lia | constructor].
  - pose proof (step_budget r e) as (H1 & H2 & H3).
    destruct (step r e) as [r1 out1]. cbn [fst snd] in *.
    destruct (IH r1) as (H4 & H5 & H6). destruct (run r1 es) as [r2 out2].
    cbn [fst snd] in *. rewrite length_app.
    split; [lia|]. split; [|apply Forall_app; split; assumption].
    intros Hn. specialize (H2 Hn). specialize (H5 Hn). lia.
Qed.

(** X1: whatever the platform and the caller do to a request, the
    callback of one made by [makeXMLHttpRequest] is invoked at most once,
    and the callback of one made by [makeFetchRequest] at most twice, and
    at most once when it never throws.  When it throws on the data of a
    fetch it is invoked again, with an [Error] that has the message of
    what it threw.  Every invocation with an error has no further
    argument. *)
Theorem callback_at_most_once (p : RequestParameters) (es : list Event) :
  length (snd (run (makeXMLHttpRequest p) es)) <= 1
  /\ length (snd (run (makeFetchRequest p) es)) <= 2
  /\ ((forall a, callback_throws a = None) ->
      length (snd (run (makeFetchRequest p) es)) <= 1)
  /\ (forall r b thrown,
      ok r = true -> type p <> Some type_string ->
      let a := callback_data b (r_headers_get r "Cache-Control")
                               (r_headers_get r "Expires") in
      callback_throws a = Some thrown ->
      snd (run (makeFetchRequest p) [FetchResolved r; BodyResolved b]) =
        [a; callback_error (Error (rej_message thrown))])
  /\ Forall error_alone (snd (run (makeFetchRequest p) es))
  /\ Forall error_alone (snd (run (makeXMLHttpRequest p) es)).
Proof.
  destruct (run_budget es (makeFetchRequest p)) as (F1 & F2 & F3).
  destruct (run_budget es (makeXMLHttpRequest p)) as (X1 & _ & X3).
  cbn [makeFetchRequest makeXMLHttpRequest callback_bound pending_callbacks] in *.
  split; [lia|]. split; [lia|]. split; [intros Hn; specialize (F2 Hn); lia|].
  split; [|split; assumption].
  intros r b thrown Hok Ht Ha.
  unfold makeFetchRequest. cbn [Ajax.run Ajax.step].
  unfold Ajax.fetch_then. rewrite Hok.
  assert (Hr : exists rd, body_reader p = Some rd).
  { unfold body_reader. destruct (type p) as [[]|]; try (eexists; reflexivity).
    congruence. }
  destruct Hr as [rd ->]. cbn [Ajax.step Ajax.run snd app].
  unfold Ajax.body_then, Ajax.invoke_caught. rewrite Ha. reflexivity.
Qed.

Lemma settled_silent (r : Request) (es : list Event) :
  pending_callbacks r = 0 -> snd (run r es) = [].
Proof.
  intros H. destruct (run_budget es r) as [H1 _].
  assert (B : callback_bound r = 0).
  { destruct r as [p [|resp|]|op p|p []]; cbn in *; try reflexivity; discriminate. }
  destruct (snd (run r es)); [reflexivity | cbn in H1; lia].
Qed.

(** X2: cancelling a request silences its callback for ever, in every
    phase of an [XMLHttpRequest] and of a fetch, but for a fetch whose body
    is being read. *)
Theorem cancel_silences_unless_reading_body (r : Request) (es : list Event) :
  local_transport r = true ->
  reading_body r = false ->
  snd (run r (Cancel :: es)) = [].
Proof.
  intros _ Hr. cbn [Ajax.run].
  assert (H : snd (step r Cancel) = [] /\ pending_callbacks (fst (step r Cancel)) = 0).
  { destruct r as [p [|resp|]|op p|p []]; try discriminate; cbn; auto. }
  destruct (step r Cancel) as [r1 out1]. cbn [fst snd] in H. destruct H as [-> H].
  pose proof (settled_silent r1 es H) as S. destruct (run r1 es). cbn in *. exact S.
Qed.

(** X3: over [XMLHttpRequest], as for every [file:] url, a load with a
    success status and a response hands [getJSON] the parsed value when the
    text parses and a [SyntaxError] when it does not, never the text; it
    hands [getArrayBuffer] the response as it is, with the two caching
    headers. *)
Theorem xhr_wrappers_deliver (env : Env) (p : RequestParameters) (xhr : XHR) (resp : Body) :
  String.prefix "file:" (url p) = true ->
  success_status (status xhr) = true ->
  response xhr = Some resp ->
  (forall j, JSON_parse (body_to_string resp) = inl j ->
     snd (run (getJSON env p) [Load xhr]) =
       [callback_data (Json j) (getResponseHeader xhr "Cache-Control")
                               (getResponseHeader xhr "Expires")])
  /\ (forall msg, JSON_parse (body_to_string resp) = inr msg ->
     snd (run (getJSON env p) [Load xhr]) = [callback_error (SyntaxError msg)])
  /\ snd (run (getArrayBuffer env p) [Load xhr]) =
       [callback_data resp (getResponseHeader xhr "Cache-Control")
                           (getResponseHeader xhr "Expires")].
Proof.
  intros Hf Hs Hr. unfold getJSON, getArrayBuffer, makeRequest.
  cbn [url extend_type]. rewrite Hf. cbn [negb makeXMLHttpRequest Ajax.run Ajax.step snd].
  unfold Ajax.xhr_onload. unfold success_status in Hs. rewrite Hs, Hr.
  cbn [not_null andb type extend_type response_to_string app].
  repeat split.
  - intros j ->. reflexivity.
  - intros msg ->. reflexivity.
Qed.

End TransportProperties.

Section RequestSetup.

Import Ajax.

(** X4: the three wrappers run on the transport that [makeRequest]
    chooses for the descriptor as it was given: they change only the field
    they set, and [postData] sends [POST], with the body of the descriptor,
    whatever method the descriptor names. *)
Theorem wrappers_override_one_field (env : Env) (p : RequestParameters) :
  (transport (getJSON env p) = transport (makeRequest env p)
   /\ parameters (getJSON env p) = extend_type p type_json)
  /\ (transport (getArrayBuffer env p) = transport (makeRequest env p)
      /\ parameters (getArrayBuffer env p) = extend_type p type_arrayBuffer)
  /\ (transport (postData env p) = transport (makeRequest env p)
      /\ parameters (postData env p) = extend_method p POST
      /\ open_method (xhr_send (parameters (postData env p))) = POST
      /\ init_method (fetch_request None (parameters (postData env p))) = POST
      /\ send_body (xhr_send (parameters (postData env p))) = body p).
Proof.
  unfold getJSON, getArrayBuffer, postData, makeRequest. cbn [url extend_type extend_method].
  destruct (negb _); [destruct (_ && _); [|destruct (_ && _)]|]; cbn; auto 10.
Qed.

(** X5: both transports send the same method, url and body, the method
    being [GET] when the descriptor names none; both ask for
    [application/json] exactly when the type is [json]; the
    [XMLHttpRequest] asks for an array buffer exactly when the type is
    [arrayBuffer] and sends credentials across origins exactly when the
    descriptor says [include]. *)
Theorem transports_send_the_same_request (referrer : option string) (p : RequestParameters) :
  init_method (fetch_request referrer p) = open_method (xhr_send p)
  /\ (method p = None -> open_method (xhr_send p) = GET)
  /\ init_url (fetch_request referrer p) = open_url (xhr_send p)
  /\ init_body (fetch_request referrer p) = send_body (xhr_send p)
  /\ requestHeaders (xhr_send p)
     = init_headers (fetch_request referrer p)
       ++ (if init_accept_json (fetch_request referrer p)
           then [("Accept", "application/json")] else [])
  /\ (init_accept_json (fetch_request referrer p) = true <-> type p = Some type_json)
  /\ (responseType (xhr_send p) = "arraybuffer" <-> type p = Some type_arrayBuffer)
  /\ (withCredentials (xhr_send p) = true <-> credentials p = Some include).
Proof.
  unfold fetch_request, xhr_send, method_or_GET, wants_json. cbn.
  repeat split; try (intros ->; reflexivity).
  - destruct (type p) as [[]|]; congruence.
  - destruct (type p) as [[]|]; congruence.
  - destruct (credentials p) as [[]|]; congruence.
Qed.

(** X6: outside a worker the referrer is undefined exactly for a
    document whose origin is empty, ["null"] or ["file://"], and is the
    origin followed by the path of the document otherwise; a fetch request
    carries that referrer. *)
Theorem referrer_of_local_documents (l : Location) (p : RequestParameters) :
  (getReferrer false None l = None
   <-> origin l = "" \/ origin l = "null" \/ origin l = "file://")
  /\ (getReferrer false None l <> None ->
      getReferrer false None l = Some (String.append (origin l) (pathname l)))
  /\ init_referrer (fetch_request (getReferrer false None l) p) = getReferrer false None l.
Proof.
  unfold getReferrer, getReferrer_window. cbn [fetch_request init_referrer].
  destruct (String.eqb_spec (origin l) "") as [E1|E1];
    destruct (String.eqb_spec (origin l) "null") as [E2|E2];
    destruct (String.eqb_spec (origin l) "file://") as [E3|E3]; cbn;
    repeat split; auto; try congruence; try tauto;
    intros [?|[?|?]]; congruence.
Qed.

End RequestSetup.

Lemma callback_at_most_once_witness :
  length (snd (Ajax.run Examples.isMapboxHTTPURL Examples.JSON_parse
                 Examples.AbortError_message Examples.TypeError_message
                 Examples.callback_returns
                 (Ajax.makeFetchRequest (Examples.get "https://example.org/a.png"))
                 [Ajax.FetchResolved Examples.response_200;
                  Ajax.BodyResolved (Ajax.Text "{}"); Ajax.Cancel])) <= 1
  /\ snd (Ajax.run Examples.isMapboxHTTPURL Examples.JSON_parse
            Examples.AbortError_message Examples.TypeError_message
            Examples.callback_fails
            (Ajax.makeFetchRequest (Examples.get "https://example.org/a.png"))
            [Ajax.FetchResolved Examples.response_200;
             Ajax.BodyResolved (Ajax.Text "{}")])
     = [Ajax.callback_data (Ajax.Text "{}") None None;
        Ajax.callback_error (Error "callback failed")].
Proof.
  split.
  - exact (proj1 (proj2 (proj2
             (callback_at_most_once Examples.isMapboxHTTPURL Examples.JSON_parse
                Examples.AbortError_message Examples.TypeError_message
                Examples.callback_returns
                (Examples.get "https://example.org/a.png")
                [Ajax.FetchResolved Examples.response_200;
                 Ajax.BodyResolved (Ajax.Text "{}"); Ajax.Cancel])))
             (fun _ => eq_refl)).
  - refine (proj1 (proj2 (proj2 (proj2
              (callback_at_most_once Examples.isMapboxHTTPURL Examples.JSON_parse
                 Examples.AbortError_message Examples.TypeError_message
                 Examples.callback_fails
                 (Examples.get "https://example.org/a.png") []))))
              Examples.response_200 (Ajax.Text "{}") _ eq_refl _ eq_refl).
    discriminate.
Defined.

Lemma cancel_silences_unless_reading_body_witness :
  snd (Ajax.run Examples.isMapboxHTTPURL Examples.JSON_parse Examples.AbortError_message
         Examples.TypeError_message Examples.callback_returns
         (Ajax.makeXMLHttpRequest (Examples.get "https://example.org/a.png"))
         [Ajax.Cancel; Ajax.Load Examples.xhr_404]) = [].
Proof.
  exact (cancel_silences_unless_reading_body Examples.isMapboxHTTPURL Examples.JSON_parse
           Examples.AbortError_message Examples.TypeError_message
           Examples.callback_returns
           (Ajax.makeXMLHttpRequest (Examples.get "https://example.org/a.png"))
           [Ajax.Load Examples.xhr_404] eq_refl eq_refl).
Defined.

Lemma xhr_wrappers_deliver_witness :
  snd (Ajax.run Examples.isMapboxHTTPURL Examples.JSON_parse Examples.AbortError_message
         Examples.TypeError_message Examples.callback_returns
         (Ajax.getJSON Examples.modern_window (Examples.get "file:///style.json"))
         [Ajax.Load Examples.xhr_200_null_text])
  = [Ajax.callback_data (Ajax.Json Ajax.JNull) None None].
Proof.
  exact (proj1 (xhr_wrappers_deliver Examples.isMapboxHTTPURL Examples.JSON_parse
                  Examples.AbortError_message Examples.TypeError_message
                  Examples.callback_returns Examples.modern_window
                  (Examples.get "file:///style.json") Examples.xhr_200_null_text
                  (Ajax.Text "null") eq_refl eq_refl eq_refl)
           Ajax.JNull eq_refl).
Defined.

Lemma transports_send_the_same_request_witness :
  Ajax.open_method (Ajax.xhr_send (Examples.get "https://example.org/a.png")) = GET.
Proof.
  exact (proj1 (proj2 (transports_send_the_same_request None
                         (Examples.get "https://example.org/a.png"))) eq_refl).
Defined.

Lemma referrer_of_local_documents_witness :
  Ajax.getReferrer false None Examples.https_location
  = Some "https://example.org/map.html".
Proof.
  refine (proj1 (proj2 (referrer_of_local_documents Examples.https_location
                          (Examples.get "https://example.org/a.png"))) _).
  discriminate.
Defined.

(** ** The image request queue, further *)

Section MoreQueueProperties.

Import ImageQueue.

Variable config : Config.t.
Variable decodes : ImgSrc -> bool.

Local Abbreviation MAX := (Config.MAX_PARALLEL_IMAGE_REQUESTS config).
Local Abbreviation getImage := (ImageQueue.getImage config).
Local Abbreviation drain := (ImageQueue.drain config).
Local Abbreviation advanceImageRequestQueue := (ImageQueue.advanceImageRequestQueue config).
Local Abbreviation onResponse := (ImageQueue.onResponse config).
Local Abbreviation onImageSettled := (ImageQueue.onImageSettled decodes).
Local Abbreviation cancel_active := (ImageQueue.cancel_active config).
Local Abbreviation call_cancel := (ImageQueue.call_cancel config).
Local Abbreviation cancel_handle := (ImageQueue.cancel_handle config).
Local Abbreviation step := (ImageQueue.step config decodes).
Local Abbreviation run := (ImageQueue.run config decodes).

(** *** Responses *)

(** What [advanceImageRequestQueue] leaves for the response handler when
    the assertion holds. *)
Lemma advance_for_response (k : nat) (s : State) (a : Activation) :
  activations s !! k = Some a ->
  (advanced a = false -> (1 <= numImageRequests s)%Z) ->
  exists s' a',
    advanceImageRequestQueue k s = (s', false)
    /\ images s' = images s
    /\ log s' = log s ++ (if advanced a then [] else [ObsAdvance k])
    /\ activations s' !! k = Some a'
    /\ a_callback a' = a_callback a.
Proof.
  intros Ha Hpos. destruct (advanced a) eqn:Had.
  - exists s, a. rewrite (advance_noop config k s a Ha Had), app_nil_r. auto.
  - rewrite (advance_first config k s a Ha Had (Hpos eq_refl)).
    eexists. exists (set_advanced true a). split; [reflexivity|].
    rewrite drain_images, drain_log. repeat split.
    apply drain_activations. cbn. apply list_lookup_insert_eq.
    eapply lookup_lt_Some, Ha.
Qed.

(** X7: what a response does to the counter, the queue, the entries and
    the activations does not depend on what the response carries: a
    failure advances the queue as a success does. *)
Theorem failure_advances_the_queue (k : nat) (r r' : ResponseArgs) (s : State) :
  numImageRequests (onResponse k r s) = numImageRequests (onResponse k r' s)
  /\ imageQueue (onResponse k r s) = imageQueue (onResponse k r' s)
  /\ objects (onResponse k r s) = objects (onResponse k r' s)
  /\ activations (onResponse k r s) = activations (onResponse k r' s).
Proof.
  unfold ImageQueue.onResponse.
  destruct (advanceImageRequestQueue k s) as [s1 threw].
  destruct threw; [auto|].
  destruct (activations s1 !! k) as [a|]; [|auto].
  destruct (err r), (data r), (err r'), (data r'); cbn; auto.
Qed.

(** X8: a response with an error invokes the callback of the request
    with that error, once and at once, and creates no image, whether or
    not it carries data too; a response with neither error nor data
    invokes nothing. *)
Theorem response_error_is_delivered
    (s : State) (k : nat) (a : Activation) (r : ResponseArgs) :
  activations s !! k = Some a ->
  (advanced a = false -> (1 <= numImageRequests s)%Z) ->
  (forall e, err r = Some e ->
     log (onResponse k r s)
     = log s ++ (if advanced a then [] else [ObsAdvance k])
             ++ [ObsCallback (a_callback a) (CbError e)]
     /\ images (onResponse k r s) = images s)
  /\ (err r = None -> data r = None ->
      images (onResponse k r s) = images s
      /\ forall cb, calls cb (onResponse k r s) = calls cb s).
Proof.
  intros Ha Hpos.
  destruct (advance_for_response k s a Ha Hpos) as (s' & a' & E & Hi & Hl & Ha' & Hcb).
  unfold ImageQueue.onResponse. rewrite E, Ha'. split.
  - intros e ->. cbn. rewrite Hl, Hcb, <- app_assoc. auto.
  - intros -> ->. split; [exact Hi|]. intros cb. unfold calls. rewrite Hl, count_app.
    destruct (advanced a); cbn; lia.
Qed.


(** *** Counting *)

(** X10: as long as the queue is not reset, [numImageRequests] is the
    number of activations that have not advanced, lies between zero and
    the ceiling, and the assertion has never thrown. *)
Theorem counter_counts_requests_in_flight (es : list Event) :
  (0 <= MAX)%Z ->
  existsb is_reset es = false ->
  let s := run es initial in
  numImageRequests s = Z.of_nat (active s)
  /\ (0 <= numImageRequests s <= MAX)%Z
  /\ no_assertion_error s.
Proof.
  intros H0 Hr. cbn zeta.
  assert (counted (run es initial) /\ no_assertion_error (run es initial)) as [Hc Hn].
  { apply (changes_counted config initial); [|split; reflexivity].
    apply run_mutates. rewrite Hr. discriminate. }
  split; [exact Hc|]. split; [|exact Hn]. split; [unfold counted in Hc; lia|].
  apply (changes_ceiling config true initial); [exact H0 | | exact H0].
  apply run_mutates. reflexivity.
Qed.

Lemma mutation_guard_agrees (resets : bool) (k : nat) (s s' : State) :
  mutation config resets s s' -> guard_agrees k s -> guard_agrees k s'.
Proof.
  unfold guard_agrees, advances. intros M G. destruct M; simpl; try exact G.
  - rewrite count_app. destruct (benign_not_counted os) as [_ ->]; [assumption|].
    rewrite Nat.add_0_r. exact G.
  - destruct (activations s !! k) as [a|] eqn:Ea.
    + rewrite (lookup_app_l_Some _ _ _ _ Ea). exact G.
    + apply lookup_ge_None in Ea. destruct (decide (k = length (activations s))) as [->|Hne].
      * rewrite lookup_app_r by lia. rewrite Nat.sub_diag. cbn. exact G.
      * rewrite lookup_ge_None_2; [exact G|]. rewrite length_app. cbn. lia.
  - rewrite count_app. cbn. destruct (decide (k0 = k)) as [->|Hne].
    + rewrite list_lookup_insert_eq by (eapply lookup_lt_Some; eassumption).
      rewrite H in G. rewrite H0 in G. cbn. rewrite Nat.eqb_refl. lia.
    + rewrite list_lookup_insert_ne by assumption.
      apply Nat.eqb_neq in Hne. rewrite Hne, !Nat.add_0_r. exact G.
  - rewrite count_app. cbn. rewrite Nat.add_0_r. exact G.
  - destruct (decide (k0 = k)) as [->|Hne].
    + rewrite list_lookup_insert_eq by (eapply lookup_lt_Some; eassumption).
      rewrite H in G. exact G.
    + rewrite list_lookup_insert_ne by assumption. exact G.
Qed.

Lemma changes_guard_agrees (resets : bool) (k : nat) (s s' : State) :
  rtc (mutation config resets) s s' -> guard_agrees k s -> guard_agrees k s'.
Proof.
  intros R. induction R as [|s1 s2 s3 M _ IH]; [auto|].
  intros G. apply IH. eapply mutation_guard_agrees; eauto.
Qed.

(** X11: in every run, resets included, the guard of an activation is
    passed at most once: a request in flight gives its slot back once,
    however often it is cancelled and however often its transport calls
    back; and it has been passed exactly when [advanced] is set. *)
Theorem slot_released_at_most_once (es : list Event) (k : nat) :
  let s := run es initial in
  advances k s <= 1
  /\ (advances k s = 1 <-> exists a, activations s !! k = Some a /\ advanced a = true).
Proof.
  cbn zeta.
  assert (G : guard_agrees k (run es initial)).
  { apply (changes_guard_agrees true k initial); [|reflexivity].
    apply run_mutates. reflexivity. }
  unfold guard_agrees in G. destruct (activations (run es initial) !! k) as [a|].
  - destruct (advanced a) eqn:Had; rewrite G.
    + split; [lia|]. split; [eauto | reflexivity].
    + split; [lia|]. split; [discriminate|]. intros (a' & [= <-] & ?). congruence.
  - rewrite G. split; [lia|]. split; [discriminate | intros (a' & ? & _); discriminate].
Qed.

(** *** Submissions after a reset *)

Lemma run_submissions_from (s : State) (reqs : list (RequestParameters * CallbackId)) :
  (0 <= MAX)%Z -> numImageRequests s = 0%Z -> imageQueue s = [] ->
  run (map submit reqs) s =
    {| imageQueue := seq (length (objects s)) (length (drop (Z.to_nat MAX) reqs));
       numImageRequests := Z.of_nat (length (take (Z.to_nat MAX) reqs));
       objects := objects s ++ map queued_for (drop (Z.to_nat MAX) reqs);
       activations := activations s ++ map activation_for (take (Z.to_nat MAX) reqs);
       images := images s;
       log := log s |}.
Proof.
  intros H0 Hn Hq. induction reqs as [|x l IH] using rev_ind.
  - rewrite take_nil, drop_nil. cbn. rewrite !app_nil_r. destruct s; cbn in *.
    subst. reflexivity.
  - rewrite map_app. cbn [map]. rewrite run_snoc, IH.
    cbn [ImageQueue.step submit].
    match goal with |- fst (getImage _ _ ?t) = _ =>
      destruct (getImage_cases config (fst x) (snd x) t) as [[Hc ->]|[Hc ->]]
    end; cbn [fst].
    + cbn [numImageRequests] in Hc. rewrite length_take in Hc.
      assert (Z.to_nat MAX <= length l) as Hl by lia.
      unfold set_imageQueue, set_objects; cbn.
      rewrite (take_app_le l [x]) by exact Hl.
      rewrite (drop_app_le l [x]) by exact Hl.
      rewrite map_app, !length_app, !length_map. cbn [length map].
      rewrite Nat.add_1_r, seq_S, <- app_assoc. destruct x; reflexivity.
    + cbn [numImageRequests] in Hc. rewrite length_take in Hc.
      assert (length l < Z.to_nat MAX) as Hl by lia.
      unfold set_activations, set_numImageRequests; cbn.
      rewrite (take_ge l) by lia.
      rewrite (take_ge (l ++ [x])) by (rewrite length_app; cbn [length]; lia).
      rewrite (drop_ge l) by lia.
      rewrite (drop_ge (l ++ [x])) by (rewrite length_app; cbn [length]; lia).
      rewrite map_app, length_app, <- app_assoc. cbn [length map].
      replace (Z.of_nat (length l + 1)) with (Z.of_nat (length l) + 1)%Z by lia.
      destruct x; reflexivity.
Qed.

(** X12: whatever the state, after [resetImageRequestQueue] the queue
    has its full capacity again: of the requests submitted next, the first
    ones, as many as the ceiling, are dispatched and the others wait in the
    order they came; with no more requests than the ceiling all are
    dispatched and none waits.  The entries and the activations made
    before the reset are still there. *)
Theorem reset_restores_capacity (s : State) (reqs : list (RequestParameters * CallbackId)) :
  (0 <= MAX)%Z ->
  let s' := run (map submit reqs) (resetImageRequestQueue s) in
  numImageRequests s' = Z.min (Z.of_nat (length reqs)) MAX
  /\ activations s' = activations s ++ map activation_for (take (Z.to_nat MAX) reqs)
  /\ pending s' = map (fun r => Some (queued_for r)) (drop (Z.to_nat MAX) reqs)
  /\ objects s' = objects s ++ map queued_for (drop (Z.to_nat MAX) reqs)
  /\ ((Z.of_nat (length reqs) <= MAX)%Z ->
      imageQueue s' = [] /\ activations s' = activations s ++ map activation_for reqs)
  /\ log s' = log s.
Proof.
  intros H0. cbn zeta.
  rewrite (run_submissions_from (resetImageRequestQueue s) reqs H0 eq_refl eq_refl).
  cbn [numImageRequests activations objects imageQueue log resetImageRequestQueue
       set_numImageRequests set_imageQueue].
  split; [rewrite length_take; lia|]. split; [reflexivity|]. split.
  { unfold pending. cbn [imageQueue objects].
    pose proof (lookup_all_seq (objects s) (map queued_for (drop (Z.to_nat MAX) reqs))) as H.
    rewrite length_map in H. rewrite H, map_map. reflexivity. }
  split; [reflexivity|]. split; [|reflexivity].
  intros Hle. rewrite drop_ge by lia. rewrite take_ge by lia. auto.
Qed.

(** *** Waiting *)

Lemma waits_ext (s s' : State) :
  imageQueue s' = imageQueue s -> numImageRequests s' = numImageRequests s ->
  waits_at_ceiling config s -> waits_at_ceiling config s'.
Proof. unfold waits_at_ceiling. intros -> ->. auto. Qed.

Lemma getImage_waits (p : RequestParameters) (cb : CallbackId) (s : State) :
  waits_at_ceiling config s -> waits_at_ceiling config (fst (getImage p cb s)).
Proof.
  unfold waits_at_ceiling. intros W.
  destruct (getImage_cases config p cb s) as [[H ->]|[H ->]]; cbn.
  - intros _. exact H.
  - intros Hq. specialize (W Hq). lia.
Qed.

Lemma advance_waits (k : nat) (s : State) :
  (1 <= MAX)%Z ->
  waits_at_ceiling config s ->
  waits_at_ceiling config (fst (advanceImageRequestQueue k s)).
Proof.
  intros H1 W. unfold ImageQueue.advanceImageRequestQueue.
  destruct (activations s !! k) as [a|]; [|exact W].
  destruct (advanced a); [exact W|].
  cbn [numImageRequests emit set_numImageRequests set_activations imageQueue].
  destruct (Z.leb_spec 0 (numImageRequests s - 1)) as [Hn|Hn]; cbn [fst].
  - unfold waits_at_ceiling. intros Hq.
    match type of Hq with imageQueue (drain ?f ?t) <> [] =>
      destruct (drain_complete config f t) as [E|E]; [cbn; lia | congruence | exact E]
    end.
  - unfold waits_at_ceiling in *. cbn. intros Hq. specialize (W Hq). lia.
Qed.

Lemma step_waits (e : Event) (s : State) :
  (1 <= MAX)%Z -> waits_at_ceiling config s -> waits_at_ceiling config (step s e).
Proof.
  intros H1 W. destruct e as [p cb|h|k r|i|]; cbn [ImageQueue.step].
  - apply getImage_waits, W.
  - assert (Hc : forall k, waits_at_ceiling config (cancel_active k s)).
    { intros k. unfold ImageQueue.cancel_active.
      destruct (activations s !! k) as [a|]; [|exact W].
      apply advance_waits; [exact H1|]. revert W. apply waits_ext; reflexivity. }
    destruct h as [o|k]; cbn [ImageQueue.cancel_handle]; [|apply Hc].
    destruct (objects s !! o) as [q|]; [|exact W].
    destruct (cancel q); cbn [ImageQueue.call_cancel]; [|apply Hc].
    revert W. apply waits_ext; reflexivity.
  - unfold ImageQueue.onResponse.
    pose proof (advance_waits k s H1 W) as W1.
    destruct (advanceImageRequestQueue k s) as [s1 threw]. cbn [fst] in W1.
    destruct threw; [exact W1|].
    destruct (activations s1 !! k) as [a|]; [|exact W1].
    destruct (err r); [revert W1; apply waits_ext; reflexivity|].
    destruct (data r); [revert W1; apply waits_ext; reflexivity | exact W1].
  - unfold ImageQueue.onImageSettled.
    destruct (images s !! i) as [l|]; [|exact W].
    destruct (settled l); [exact W|].
    destruct (decodes (src (img l))); revert W; apply waits_ext; reflexivity.
  - unfold waits_at_ceiling. cbn. congruence.
Qed.

(** X13: with a ceiling of at least one, in every run, resets included,
    a request waits in the queue only while the counter is at the ceiling
    or above: no request is left waiting while a slot is free. *)
Theorem requests_wait_only_at_ceiling (es : list Event) :
  (1 <= MAX)%Z ->
  imageQueue (run es initial) <> [] ->
  (MAX <= numImageRequests (run es initial))%Z.
Proof.
  intros H1.
  change (waits_at_ceiling config (run es initial)).
  induction es as [|e es IH] using rev_ind.
  - unfold waits_at_ceiling. cbn. congruence.
  - rewrite run_snoc. apply step_waits; assumption.
Qed.

(** *** The order of admission *)

Lemma view_alter_cancel (f : CancelFn) (o o' : nat) (l : list Queued) :
  view <$> (alter (set_cancel f) o l !! o') = view <$> (l !! o').
Proof.
  destruct (decide (o = o')) as [->|Hne].
  - rewrite list_lookup_alter_eq. destruct (l !! o'); reflexivity.
  - rewrite list_lookup_alter_ne by assumption. reflexivity.
Qed.

Lemma drain_nil (fuel : nat) (s : State) : imageQueue s = [] -> drain fuel s = s.
Proof. intros H. destruct fuel; cbn [ImageQueue.drain]; [|rewrite H]; reflexivity. Qed.

Lemma drain_full (fuel : nat) (s : State) :
  (MAX <= numImageRequests s)%Z -> drain fuel s = s.
Proof.
  intros H. destruct fuel; cbn [ImageQueue.drain]; [reflexivity|].
  destruct (imageQueue s); [reflexivity|].
  destruct (Z.ltb_spec (numImageRequests s) MAX); [lia | reflexivity].
Qed.

(** The drain loop on a queue whose entries read [vs].  The last
    conjunct is about the entries as the model keeps them, each with the
    descriptor it was submitted with. *)
Lemma drain_takes (vs : list (RequestParameters * CallbackId * bool)) :
  forall (fuel : nat) (s : State),
    map (fun o => view <$> (objects s !! o)) (imageQueue s) = map Some vs ->
    length vs <= fuel ->
    let free := Z.to_nat (MAX - numImageRequests s) in
    activations (drain fuel s)
      = activations s ++ map activation_for (fst (taken free vs))
    /\ imageQueue (drain fuel s) = drop (snd (taken free vs)) (imageQueue s)
    /\ numImageRequests (drain fuel s)
       = (numImageRequests s + Z.of_nat (length (fst (taken free vs))))%Z
    /\ (forall o, view <$> (objects (drain fuel s) !! o) = view <$> (objects s !! o)).
Proof.
  induction vs as [|[[p cb] c] vs IH]; intros fuel s Hv Hf; cbn zeta.
  - destruct (imageQueue s) eqn:Eq; [|discriminate].
    rewrite drain_nil by exact Eq. cbn. rewrite app_nil_r, Z.add_0_r, Eq. auto.
  - destruct (imageQueue s) as [|o rest] eqn:Eq; [discriminate|].
    cbn [map] in Hv. injection Hv as Ho Hrest.
    destruct (objects s !! o) as [q|] eqn:Eo; [|discriminate].
    cbn in Ho. injection Ho as Hp Hcb Hc.
    destruct fuel as [|fuel]; [cbn in Hf; lia|]. cbn [length] in Hf.
    destruct (Z.lt_ge_cases (numImageRequests s) MAX) as [Hlt|Hge].
    + replace (Z.to_nat (MAX - numImageRequests s))
        with (S (Z.to_nat (MAX - (numImageRequests s + 1)))) by lia.
      cbn [taken ImageQueue.drain]. rewrite Eq.
      destruct (Z.ltb_spec (numImageRequests s) MAX) as [_|]; [|lia].
      cbn [objects set_imageQueue]. rewrite Eo, Hc.
      destruct c; cbn [negb].
      * specialize (IH fuel (set_imageQueue rest s) Hrest ltac:(lia)).
        cbn zeta in IH. cbn [numImageRequests set_imageQueue activations imageQueue objects] in IH.
        replace (S (Z.to_nat (MAX - (numImageRequests s + 1))))
          with (Z.to_nat (MAX - numImageRequests s)) by lia.
        destruct (taken (Z.to_nat (MAX - numImageRequests s)) vs) as [adm n].
        cbn [fst snd drop] in *. exact IH.
      * rewrite getImage_dispatches by exact Hlt.
        match goal with |- context [drain fuel ?t] => set (t0 := t) end.
        assert (Ea : activations t0
                     = activations s ++ [activation_for (p, cb)])
          by (cbn; rewrite Hp, Hcb; reflexivity).
        assert (En : numImageRequests t0 = (numImageRequests s + 1)%Z) by reflexivity.
        assert (Eq0 : imageQueue t0 = rest) by reflexivity.
        assert (Eo0 : forall o', view <$> (objects t0 !! o') = view <$> (objects s !! o'))
          by (intros o'; cbn; apply view_alter_cancel).
        destruct (IH fuel t0) as (I1 & I2 & I3 & I4).
        { rewrite Eq0. erewrite map_ext; [exact Hrest|]. intros o'. apply Eo0. }
        { lia. }
        rewrite En, Ea, Eq0 in *.
        destruct (taken (Z.to_nat (MAX - (numImageRequests s + 1))) vs) as [adm n].
        cbn [fst snd drop length map] in *.
        rewrite I1, I2, I3, <- app_assoc. cbn [app].
        repeat split; [lia|]. intros o'. rewrite I4. apply Eo0.
    + replace (Z.to_nat (MAX - numImageRequests s)) with 0 by lia.
      rewrite drain_full by exact Hge. cbn. rewrite app_nil_r, Z.add_0_r, Eq. auto.
Qed.

Lemma view_flags (a b : option Queued) :
  view <$> a = view <$> b -> flags <$> a = flags <$> b.
Proof.
  destruct a as [[]|], b as [[]|]; cbn; intros H; try discriminate; [|reflexivity].
  injection H as _ -> ->. reflexivity.
Qed.

(** X14: a drain pass dispatches in the order of the queue.  When the
    entries of the queue read [vs], head first, the pass goes through them
    while slots are free: it drops the cancelled ones without dispatching
    them, dispatches the others in that order, one per free slot, each
    with its descriptor and the type [arrayBuffer], and leaves the
    remaining entries in the queue; it changes neither the callback nor
    the cancelled flag of any entry, and it invokes nothing. *)
Theorem drain_dispatches_in_order
    (s : State) (vs : list (RequestParameters * CallbackId * bool)) :
  map (fun o => view <$> (objects s !! o)) (imageQueue s) = map Some vs ->
  let free := Z.to_nat (MAX - numImageRequests s) in
  let s' := drain (length (imageQueue s)) s in
  activations s' = activations s ++ map activation_for (fst (taken free vs))
  /\ imageQueue s' = drop (snd (taken free vs)) (imageQueue s)
  /\ numImageRequests s'
     = (numImageRequests s + Z.of_nat (length (fst (taken free vs))))%Z
  /\ (forall o, flags <$> (objects s' !! o) = flags <$> (objects s !! o))
  /\ log s' = log s.
Proof.
  intros Hv. cbn zeta.
  assert (Hl : length vs <= length (imageQueue s)).
  { apply (f_equal length) in Hv. rewrite !length_map in Hv. lia. }
  destruct (drain_takes vs (length (imageQueue s)) s Hv Hl) as (H1 & H2 & H3 & H4).
  repeat split; try assumption; [|apply drain_log].
  intros o. apply view_flags, H4.
Qed.

(** *** Cancelled entries *)

Lemma lookup_snoc_inv {A : Type} (l : list A) (x y : A) (i : nat) :
  (l ++ [x]) !! i = Some y -> l !! i = Some y \/ y = x.
Proof.
  revert i. induction l as [|z l IH]; intros [|i] H; simpl in *; auto;
    try (right; congruence); destruct i; discriminate.
Qed.

Lemma lookup_insert_inv {A : Type} (l : list A) (x y : A) (i j : nat) :
  <[i := x]> l !! j = Some y -> l !! j = Some y \/ y = x.
Proof.
  intros H. apply list_lookup_insert_Some in H as [(_ & -> & _)|[_ H]]; auto.
Qed.

Lemma lookup_alter_inv {A : Type} (f : A -> A) (l : list A) (y : A) (i j : nat) :
  alter f i l !! j = Some y ->
  (i <> j /\ l !! j = Some y) \/ exists x, i = j /\ l !! j = Some x /\ y = f x.
Proof.
  destruct (decide (i = j)) as [->|Hne].
  - rewrite list_lookup_alter_eq. destruct (l !! j) as [x|]; [|discriminate].
    cbn. intros [= <-]. right. eauto.
  - rewrite list_lookup_alter_ne by assumption. auto.
Qed.

(** A retired callback with its number of invocations so far. *)
Local Abbreviation quiet cb c s := (retired cb s /\ calls cb s = c).

Lemma quiet_ext (cb : CallbackId) (c : nat) (s s' : State) :
  activations s' = activations s -> images s' = images s ->
  objects s' = objects s -> calls cb s' = calls cb s ->
  quiet cb c s -> quiet cb c s'.
Proof. unfold retired. intros -> -> -> ->. auto. Qed.

Lemma quiet_dispatch (cb cb' : CallbackId) (c : nat) (p : RequestParameters) (s : State) :
  cb' <> cb -> quiet cb c s ->
  quiet cb c (set_activations (activations s ++ [activation_for (p, cb')])
                (set_numImageRequests (numImageRequests s + 1) s)).
Proof.
  intros Hne [(Ra & Ri & Ro) Hc]. split; [split; [|split]|exact Hc]; cbn; auto.
  intros k a Ha. apply lookup_snoc_inv in Ha as [Ha| ->]; [eauto | exact Hne].
Qed.

Lemma getImage_quiet (cb cb' : CallbackId) (c : nat) (p : RequestParameters) (s : State) :
  cb' <> cb -> quiet cb c s -> quiet cb c (fst (getImage p cb' s)).
Proof.
  intros Hne Q. destruct (getImage_cases config p cb' s) as [[_ ->]|[_ ->]]; cbn [fst].
  - destruct Q as [(Ra & Ri & Ro) Hc]. split; [split; [|split]|exact Hc]; cbn; auto.
    intros o q Hq Hcb. apply lookup_snoc_inv in Hq as [Hq| ->]; [eauto|].
    cbn in Hcb. congruence.
  - apply quiet_dispatch; assumption.
Qed.

Lemma drain_quiet (cb : CallbackId) (c : nat) (fuel : nat) (s : State) :
  quiet cb c s -> quiet cb c (drain fuel s).
Proof.
  revert s. induction fuel as [|fuel IH]; intros s Q; [exact Q|].
  cbn [ImageQueue.drain]. destruct (imageQueue s) as [|o rest]; [exact Q|].
  destruct (Z.ltb_spec (numImageRequests s) MAX) as [Hlt|_]; [|exact Q].
  cbn [objects set_imageQueue].
  destruct (objects s !! o) as [request|] eqn:Eo.
  - destruct (cancelled request) eqn:Ec; cbn [negb].
    + apply IH. revert Q. apply quiet_ext; reflexivity.
    + rewrite getImage_dispatches by exact Hlt. apply IH.
      assert (Hne : callback request <> cb).
      { intros E. destruct Q as [(_ & _ & Ro) _].
        destruct (Ro o request Eo E) as [Hc _]. congruence. }
      assert (Q1 : quiet cb c (set_imageQueue rest s))
        by (revert Q; apply quiet_ext; reflexivity).
      pose proof (quiet_dispatch cb (callback request) c (requestParameters request)
                    _ Hne Q1) as [(Ra & Ri & Ro) Hc].
      split; [split; [|split]|exact Hc]; cbn; auto.
      intros o' q' Hq' Hcb. cbn in Ro.
      apply lookup_alter_inv in Hq' as [[_ Hq']|(x & <- & Hx & ->)]; [eauto|].
      cbn in Hcb. rewrite Eo in Hx. injection Hx as <-. congruence.
  - apply IH. revert Q. apply quiet_ext; reflexivity.
Qed.

Lemma quiet_insert_activation
    (cb : CallbackId) (c : nat) (k : nat) (a a' : Activation) (s : State) :
  activations s !! k = Some a -> a_callback a' = a_callback a ->
  quiet cb c s -> quiet cb c (set_activations (<[k := a']> (activations s)) s).
Proof.
  intros Ha Hcb [(Ra & Ri & Ro) Hc]. split; [split; [|split]|exact Hc]; cbn; auto.
  intros k' x Hx. apply lookup_insert_inv in Hx as [Hx| ->]; [eauto|].
  rewrite Hcb. eauto.
Qed.

Lemma quiet_emit (cb : CallbackId) (c : nat) (os : list Obs) (s : State) :
  count (is_callback cb) os = 0 -> quiet cb c s -> quiet cb c (emit os s).
Proof.
  intros H0 [R Hc]. split; [exact R|]. unfold calls in *. cbn.
  rewrite count_app. lia.
Qed.

Lemma advance_quiet (cb : CallbackId) (c : nat) (k : nat) (s : State) :
  quiet cb c s -> quiet cb c (fst (advanceImageRequestQueue k s)).
Proof.
  intros Q. unfold ImageQueue.advanceImageRequestQueue.
  destruct (activations s !! k) as [a|] eqn:Ea; [|exact Q].
  destruct (advanced a); [exact Q|].
  assert (Q2 : quiet cb c
                 (emit [ObsAdvance k]
                    (set_numImageRequests (numImageRequests s - 1)
                       (set_activations (<[k := set_advanced true a]> (activations s)) s)))).
  { apply quiet_emit; [reflexivity|].
    pose proof (quiet_insert_activation cb c k a (set_advanced true a) s Ea eq_refl Q) as Q1.
    revert Q1. apply quiet_ext; reflexivity. }
  match goal with |- context [Z.leb 0 ?n] => destruct (Z.leb 0 n) end; cbn [fst].
  - apply drain_quiet, Q2.
  - apply quiet_emit; [reflexivity | exact Q2].
Qed.

Lemma onResponse_quiet (cb : CallbackId) (c : nat) (k : nat) (r : ResponseArgs) (s : State) :
  quiet cb c s -> quiet cb c (onResponse k r s).
Proof.
  intros Q. unfold ImageQueue.onResponse.
  pose proof (advance_quiet cb c k s Q) as Q1.
  destruct (advanceImageRequestQueue k s) as [s1 threw]. cbn [fst] in Q1.
  destruct threw; [exact Q1|].
  destruct (activations s1 !! k) as [a|] eqn:Ea; [|exact Q1].
  assert (Hne : a_callback a <> cb) by (destruct Q1 as [(Ra & _) _]; eauto).
  destruct (err r).
  - apply quiet_emit; [|exact Q1]. cbn. apply Nat.eqb_neq in Hne. rewrite Hne. reflexivity.
  - destruct (data r); [|exact Q1].
    destruct Q1 as [(Ra & Ri & Ro) Hc]. split; [split; [|split]|exact Hc]; cbn; auto.
    intros i l Hl. apply lookup_snoc_inv in Hl as [Hl| ->]; [eauto | exact Hne].
Qed.

Lemma onImageSettled_quiet (cb : CallbackId) (c : nat) (i : nat) (s : State) :
  quiet cb c s -> quiet cb c (onImageSettled i s).
Proof.
  intros Q. unfold ImageQueue.onImageSettled.
  destruct (images s !! i) as [l|] eqn:El; [|exact Q].
  destruct (settled l); [exact Q|].
  assert (Hne : img_callback l <> cb) by (destruct Q as [(_ & Ri & _) _]; eauto).
  assert (Q1 : quiet cb c (set_images (<[i := set_settled true l]> (images s)) s)).
  { destruct Q as [(Ra & Ri & Ro) Hc]. split; [split; [|split]|exact Hc]; cbn; auto.
    intros i' l' Hl'. apply lookup_insert_inv in Hl' as [Hl'| ->]; [eauto | exact Hne]. }
  apply Nat.eqb_neq in Hne.
  destruct (decodes (src (img l))); (apply quiet_emit; [|exact Q1]); cbn;
    rewrite Hne; reflexivity.
Qed.

Lemma cancel_active_quiet (cb : CallbackId) (c : nat) (k : nat) (s : State) :
  quiet cb c s -> quiet cb c (cancel_active k s).
Proof.
  intros Q. unfold ImageQueue.cancel_active.
  destruct (activations s !! k) as [a|] eqn:Ea; [|exact Q].
  apply advance_quiet. apply quiet_emit; [reflexivity|].
  apply (quiet_insert_activation cb c k a); [exact Ea | reflexivity | exact Q].
Qed.

Lemma cancel_handle_quiet (cb : CallbackId) (c : nat) (h : Handle) (s : State) :
  quiet cb c s -> quiet cb c (cancel_handle h s).
Proof.
  intros Q. destruct h as [o|k]; cbn [ImageQueue.cancel_handle];
    [|apply cancel_active_quiet, Q].
  destruct (objects s !! o) as [q|] eqn:Eo; [|exact Q].
  destruct (cancel q) eqn:Ec; cbn [ImageQueue.call_cancel];
    [|apply cancel_active_quiet, Q].
  destruct Q as [(Ra & Ri & Ro) Hc]. split; [split; [|split]|exact Hc]; cbn; auto.
  intros o' q' Hq' Hcb.
  apply lookup_alter_inv in Hq' as [[_ Hq']|(x & _ & Hx & ->)]; [eauto|].
  cbn in *. destruct (Ro o' x Hx Hcb) as [_ Hm]. auto.
Qed.

Lemma step_quiet (cb : CallbackId) (c : nat) (e : Event) (s : State) :
  submits cb e = false -> quiet cb c s -> quiet cb c (step s e).
Proof.
  intros He Q. destruct e as [p cb'|h|k r|i|]; cbn [ImageQueue.step].
  - apply getImage_quiet; [|exact Q]. cbn in He. apply Nat.eqb_neq, He.
  - apply cancel_handle_quiet, Q.
  - apply onResponse_quiet, Q.
  - apply onImageSettled_quiet, Q.
  - revert Q. apply quiet_ext; reflexivity.
Qed.

Lemma run_quiet (cb : CallbackId) (c : nat) (es : list Event) (s : State) :
  existsb (submits cb) es = false -> quiet cb c s -> quiet cb c (run es s).
Proof.
  revert s. induction es as [|e es IH]; intros s He Q; [exact Q|].
  cbn in He. apply orb_false_iff in He as [He1 He2].
  cbn [ImageQueue.run fold_left]. apply IH; [exact He2|].
  apply step_quiet; assumption.
Qed.

(** X15: a request that is cancelled while it waits in the queue is
    never dispatched and its callback is never invoked, whatever happens
    afterwards, as long as the callback is not handed to [getImage] again.
    The entry still has the [cancel] it was created with, and no other
    entry, activation or image holds its callback. *)
Theorem cancelled_while_queued_never_calls_back
    (t : State) (o : nat) (q : Queued) (es : list Event) :
  objects t !! o = Some q -> cancel q = cancel_method ->
  (forall k a, activations t !! k = Some a -> a_callback a <> callback q) ->
  (forall i l, images t !! i = Some l -> img_callback l <> callback q) ->
  (forall o' q', objects t !! o' = Some q' -> callback q' = callback q -> o' = o) ->
  existsb (submits (callback q)) es = false ->
  let t' := run es (cancel_handle (HQueued o) t) in
  calls (callback q) t' = calls (callback q) t
  /\ (forall k a, activations t' !! k = Some a -> a_callback a <> callback q)
  /\ (forall i l, images t' !! i = Some l -> img_callback l <> callback q).
Proof.
  intros Hq Hm Ra Ri Ro Hes. cbn zeta.
  assert (Q : quiet (callback q) (calls (callback q) t) (cancel_handle (HQueued o) t)).
  { cbn [ImageQueue.cancel_handle]. rewrite Hq, Hm. cbn [ImageQueue.call_cancel].
    split; [split; [|split]|reflexivity]; cbn; auto.
    intros o' q' Hq' Hcb.
    apply lookup_alter_inv in Hq' as [[Hne Hq']|(x & <- & Hx & ->)].
    - exfalso. apply Hne. symmetry. eauto.
    - rewrite Hq in Hx. injection Hx as <-. cbn. auto. }
  destruct (run_quiet _ _ es _ Hes Q) as [(Ra' & Ri' & _) Hc]. auto.
Qed.

End MoreQueueProperties.

Lemma response_error_is_delivered_witness :
  ImageQueue.log (ImageQueue.onResponse Examples.ceiling_2 0 Examples.failure
                    Examples.crowded)
  = [ImageQueue.ObsAdvance 0;
     ImageQueue.ObsCallback 1 (ImageQueue.CbError (Error "Network Error"))].
Proof.
  refine (proj1 (proj1 (response_error_is_delivered Examples.ceiling_2 Examples.crowded 0
                          (ImageQueue.activation_for (Examples.get "1.png", 1))
                          Examples.failure eq_refl _)
                   (Error "Network Error") eq_refl)).
  intros _. vm_compute. discriminate.
Defined.


Lemma counter_counts_requests_in_flight_witness :
  ImageQueue.numImageRequests Examples.crowded
  = Z.of_nat (ImageQueue.active Examples.crowded).
Proof.
  refine (proj1 (counter_counts_requests_in_flight Examples.ceiling_2 Examples.decodes_all
                   Examples.five _ eq_refl)).
  vm_compute. discriminate.
Defined.

Lemma reset_restores_capacity_witness :
  ImageQueue.numImageRequests
    (ImageQueue.run Examples.ceiling_2 Examples.decodes_all
       (map ImageQueue.submit [(Examples.get "6.png", 6)])
       (ImageQueue.resetImageRequestQueue Examples.crowded))
  = 1%Z.
Proof.
  refine (proj1 (reset_restores_capacity Examples.ceiling_2 Examples.decodes_all
                   Examples.crowded [(Examples.get "6.png", 6)] _)).
  vm_compute. discriminate.
Defined.

Lemma requests_wait_only_at_ceiling_witness :
  (2 <= ImageQueue.numImageRequests Examples.crowded)%Z.
Proof.
  refine (requests_wait_only_at_ceiling Examples.ceiling_2 Examples.decodes_all
            Examples.five _ _).
  - vm_compute. discriminate.
  - vm_compute. discriminate.
Defined.

Lemma drain_dispatches_in_order_witness :
  map ImageQueue.a_callback
    (ImageQueue.activations
       (ImageQueue.drain Examples.ceiling_2
          (length (ImageQueue.imageQueue Examples.before_drain)) Examples.before_drain))
  = [1; 2; 3; 5].
Proof.
  destruct (drain_dispatches_in_order Examples.ceiling_2 Examples.before_drain
              [(Examples.get "3.png", 3, false); (Examples.get "4.png", 4, true);
               (Examples.get "5.png", 5, false)] eq_refl) as (H & _).
  rewrite H. reflexivity.
Defined.

Lemma cancelled_while_queued_never_calls_back_witness :
  ImageQueue.calls 4
    (ImageQueue.run Examples.ceiling_2 Examples.decodes_all
       [ImageQueue.Respond 0 Examples.failure; ImageQueue.Respond 1 Examples.failure;
        ImageQueue.Respond 2 Examples.failure; ImageQueue.Respond 3 Examples.failure]
       (ImageQueue.cancel_handle Examples.ceiling_2 (ImageQueue.HQueued 1)
          Examples.crowded))
  = 0.
Proof.
  refine (proj1 (cancelled_while_queued_never_calls_back Examples.ceiling_2
                   Examples.decodes_all Examples.crowded 1
                   (ImageQueue.queued_for (Examples.get "4.png", 4))
                   [ImageQueue.Respond 0 Examples.failure;
                    ImageQueue.Respond 1 Examples.failure;
                    ImageQueue.Respond 2 Examples.failure;
                    ImageQueue.Respond 3 Examples.failure]
                   eq_refl eq_refl _ _ _ eq_refl)).
  - intros [|[|k]] a H; vm_compute in H; try discriminate;
      injection H as <-; vm_compute; discriminate.
  - intros i l H. vm_compute in H. destruct i; discriminate.
  - intros [|[|[|o']]] q' H Hcb; vm_compute in H; try discriminate;
      try reflexivity; injection H as <-; vm_compute in Hcb; discriminate.
Defined.

(** ** Videos *)

Section VideoProperties.

Import Video.

Variable resolve : string -> Anchor.
Variable location : Anchor.

Local Abbreviation sameOrigin := (Video.sameOrigin resolve location).
Local Abbreviation append_source := (Video.append_source resolve location).
Local Abbreviation getVideo := (Video.getVideo resolve location).

Lemma sameOrigin_spec (u : string) :
  sameOrigin u = true
  <-> protocol (resolve u) = protocol location /\ host (resolve u) = host location.
Proof.
  unfold Video.sameOrigin. rewrite andb_true_iff, !String.eqb_eq. reflexivity.
Qed.

Lemma fold_append_source (urls : list string) (v : VideoElement) :
  let v' := fold_left append_source urls v in
  sources v' = sources v ++ urls
  /\ muted v' = muted v
  /\ crossOrigin v' = if forallb sameOrigin urls then crossOrigin v else Some "Anonymous".
Proof.
  revert v. induction urls as [|u urls IH]; intros v; cbn zeta.
  - cbn. rewrite app_nil_r. auto.
  - cbn [fold_left forallb]. destruct (IH (append_source v u)) as (H1 & H2 & H3).
    rewrite H1, H2, H3. cbn [Video.append_source sources muted crossOrigin].
    rewrite <- app_assoc. repeat split.
    destruct (sameOrigin u); cbn [negb andb]; [reflexivity|].
    destruct (forallb sameOrigin urls); reflexivity.
Qed.

(** X16: the element that [getVideo] builds is muted and has one source
    per url, in the order of the urls; its [crossOrigin] is ["Anonymous"]
    exactly when one of the urls differs from the location of the document
    in protocol or in host, and is left unset otherwise, as when there is
    no url at all. *)
Theorem getVideo_sources_and_crossOrigin (urls : list string) :
  sources (getVideo urls) = urls
  /\ muted (getVideo urls) = true
  /\ (crossOrigin (getVideo urls) = Some "Anonymous"
      <-> exists u, In u urls
                    /\ (protocol (resolve u) <> protocol location
                        \/ host (resolve u) <> host location))
  /\ (crossOrigin (getVideo urls) = None
      <-> forall u, In u urls ->
                    protocol (resolve u) = protocol location
                    /\ host (resolve u) = host location).
Proof.
  unfold Video.getVideo.
  destruct (fold_append_source urls {| muted := true; crossOrigin := None; sources := [] |})
    as (H1 & H2 & H3).
  cbn zeta in *. rewrite H1, H2, H3. cbn [sources muted crossOrigin app].
  split; [reflexivity|]. split; [reflexivity|].
  destruct (forallb sameOrigin urls) eqn:E.
  - rewrite forallb_forall in E. split; split; try discriminate; auto.
    + intros (u & Hu & Hd). apply E, sameOrigin_spec in Hu. tauto.
    + intros _ u Hu. apply sameOrigin_spec, E, Hu.
  - assert (Hex : exists u, In u urls /\ sameOrigin u = false).
    { clear -E. induction urls as [|u urls IH]; [discriminate|].
      cbn in E. destruct (sameOrigin u) eqn:Eu.
      - destruct (IH E) as (u' & Hu' & Hs). exists u'. split; [right|]; assumption.
      - exists u. split; [left; reflexivity | exact Eu]. }
    destruct Hex as (u & Hu & Hs).
    assert (Hd : protocol (resolve u) <> protocol location
                 \/ host (resolve u) <> host location).
    { destruct (String.eqb_spec (protocol (resolve u)) (protocol location)) as [Ep|Ep];
        [|left; exact Ep].
      right. intros Eh. assert (sameOrigin u = true) by (apply sameOrigin_spec; auto).
      congruence. }
    split; split; try discriminate; eauto.
    intros Hall. destruct (Hall u Hu) as [Hp Hh]. exfalso. destruct Hd; auto.
Qed.

End VideoProperties.
